(** * App.tsx: the application state controller of the Pokémon Generator Lab

    A shallow embedding of [src/App.tsx]: the economy rules
    ([getRarityResellValue], [rarityOrderMap]), the three asynchronous
    workflows ([handleGeneratePokemon], [handleGenerateEvolution], the resell
    confirmation with its [onConfirmAction] closure) and the display
    ordering ([sortedPokemons]).

    Conventions of the embedding.
    - A JavaScript number that holds a token amount, a rank or a time stamp
      is an integer; it is a [Z] here (the program only adds and subtracts
      small constants, where double arithmetic is exact).
    - React state is the record [AppState]; a [setX v] call is a field
      update.  A handler reads the state of the render it was created in:
      the closure that outlives its render ([onConfirmAction], stored in
      [modalOnConfirm]) is a record of the values it captured.
    - The collaborators the file imports ([indexedDbService],
      [pokemonApiService], the GenAI client) are not part of App.tsx.  Every
      call to them is logged in a trace, and its outcome (a value, or a
      thrown error) is read from an oracle [Services] over which the
      theorems quantify.
    - [await] is sequencing in a state-and-exception monad; [try], [catch]
      and [finally] are combinators of that monad.  A handler runs to its
      end: what other handlers do while it is suspended at an [await] is
      not modelled, and a change of the state between two handlers is the
      handlers run one after the other. *)

From Stdlib Require Import ZArith Lia Ascii Sorting.Sorted Sorting.Permutation.
From stdpp Require Import base option list gmap strings pretty.

Open Scope Z_scope.
Open Scope string_scope.

(** ** Data model (types.ts) *)

(** Modelled from the spec: the enumeration [PokemonRarity] of types.ts
    (imported by App.tsx, not part of it): eight tiers, from the lowest to
    the highest F, E, D, C, B, A, S, S+. *)
Module PokemonRarity.
Inductive t : Set := S_PLUS | S | A | B | C | D | E | F.

#[global] Instance rarity_eq_dec : EqDecision t.
Proof. solve_decision. Defined.

(** The tiers, lowest first. *)
Definition ascending : list t := [F; E; D; C; B; A; S; S_PLUS].

(** The text a tier is rendered as inside a template literal: the name
    the spec gives the tier. *)
Definition render (r : t) : string :=
  match r with
  | S_PLUS => "S+" | S => "S" | A => "A" | B => "B"
  | C => "C" | D => "D" | E => "E" | F => "F"
  end.
End PokemonRarity.

(** Modelled from the spec: the enumeration [PokemonStatus] of types.ts. *)
Module PokemonStatus.
Inductive t : Set := OWNED | RESOLD.

#[global] Instance status_eq_dec : EqDecision t.
Proof. solve_decision. Defined.
End PokemonStatus.

(** Modelled from the spec: the interface [PokemonEvolution] of types.ts;
    the fields are those of the object literal [newEvolution]. *)
Module PokemonEvolution.
Record t : Set := mk {
  evolutionName : string;
  evolutionDescription : string;
  evolutionStats : string;
  evolutionImageBase64 : string;
  generatedAt : string
}.

#[global] Instance evolution_eq_dec : EqDecision t.
Proof. solve_decision. Defined.
End PokemonEvolution.

(** Modelled from the spec: the interface [Pokemon] of types.ts; the fields
    are those App.tsx reads. *)
Module Pokemon.
Record t : Set := mk {
  id : string;
  name : string;
  rarity : PokemonRarity.t;
  status : PokemonStatus.t;
  generatedAt : string;
  imageBase64 : string;
  evolution : option PokemonEvolution.t
}.

#[global] Instance pokemon_eq_dec : EqDecision t.
Proof. solve_decision. Defined.

(** [{ ...p, status: s }] *)
Definition with_status (p : t) (s : PokemonStatus.t) : t :=
  mk (id p) (name p) (rarity p) s (generatedAt p) (imageBase64 p) (evolution p).

(** [{ ...p, evolution: e }] *)
Definition with_evolution (p : t) (e : PokemonEvolution.t) : t :=
  mk (id p) (name p) (rarity p) (status p) (generatedAt p) (imageBase64 p) (Some e).
End Pokemon.

(** A rarity as [getRarityResellValue] can meet it at run time: a member of
    the enumeration, or any other value (the [default] branch of its
    [switch]). *)
Inductive RarityValue : Set :=
| Tier (r : PokemonRarity.t)
| Unmapped (raw : string).

(** ** Economy rules *)

Definition GENERATION_COST : Z := 10.

Definition getRarityResellValue (rarity : RarityValue) : Z :=
  match rarity with
  | Tier PokemonRarity.S_PLUS => 25
  | Tier PokemonRarity.S => 15
  | Tier PokemonRarity.A => 10
  | Tier PokemonRarity.B => 5
  | Tier PokemonRarity.C => 4
  | Tier PokemonRarity.D => 3
  | Tier PokemonRarity.E => 2
  | Tier PokemonRarity.F => 1
  | Unmapped _ => 1
  end.

Definition rarityOrderMap (rarity : PokemonRarity.t) : Z :=
  match rarity with
  | PokemonRarity.S_PLUS => 7
  | PokemonRarity.S => 6
  | PokemonRarity.A => 5
  | PokemonRarity.B => 4
  | PokemonRarity.C => 3
  | PokemonRarity.D => 2
  | PokemonRarity.E => 1
  | PokemonRarity.F => 0
  end.

(** ** Values of the user interface *)

(** Modelled from the spec: the interface [AppMessage] of types.ts, a
    notification of one of three kinds. *)
Module AppMessage.
Inductive kind : Set := success | error | warning.
Record t : Set := mk { type : kind; text : string }.
End AppMessage.

(** The body of the confirmation dialog: the paragraph built by
    [handleResellConfirmation], by the two values it interpolates. *)
Record ModalContent : Set := mkModalContent {
  content_pokemonName : string;
  content_resellValue : Z
}.

(** The closure [onConfirmAction].  It is created by one call of
    [handleResellConfirmation] and kept in the state [modalOnConfirm]; what
    it reads when it is run later are the bindings of the render and of
    the call that created it: [pokemons], [tokenBalance] and the argument
    [pokemonId]. *)
Record ConfirmClosure : Set := mkConfirmClosure {
  captured_pokemons : list Pokemon.t;
  captured_tokenBalance : Z;
  captured_pokemonId : string
}.

(** The [useState] cells of the component. *)
Record AppState : Set := mkAppState {
  pokemons : list Pokemon.t;
  tokenBalance : Z;
  isLoading : bool;
  isGeneratingPokemon : bool;
  isGeneratingEvolutionForPokemonId : option string;
  message : option AppMessage.t;
  sortOrder : string;
  isModalOpen : bool;
  modalTitle : string;
  modalContent : option ModalContent;
  modalOnConfirm : option ConfirmClosure;
  isModalConfirmLoading : bool;
  pokemonToResellId : option string
}.

(** The state of the first render: the initial values of the cells. *)
Definition initialAppState : AppState :=
  mkAppState [] 0 true false None None "date-desc" false "" None None false None.

(** ** The collaborators *)

(** A thrown value: an instance of [Error] (by its [name] and [message]),
    or anything else (by its [String()] rendering). *)
Inductive Thrown : Set :=
| ErrorObject (name message : string)
| NonError (rendering : string).

(** [new Error(message)] *)
Definition new_Error (message : string) : Thrown := ErrorObject "Error" message.

(** [error instanceof Error ? error.message : String(error)] *)
Definition error_text (e : Thrown) : string :=
  match e with
  | ErrorObject _ message => message
  | NonError rendering => rendering
  end.

(** [`${e}`]: Error.prototype.toString for an error object. *)
Definition String_of (e : Thrown) : string :=
  match e with
  | ErrorObject name message =>
      if String.eqb name "" then message
      else if String.eqb message "" then name
      else name ++ ": " ++ message
  | NonError rendering => rendering
  end.

(** How a call settles: it returns a value or throws; for an awaited
    promise, it resolves or rejects. *)
Inductive Res (A : Type) : Type :=
| Returns (a : A)
| Throws (e : Thrown).
Arguments Returns {A} a.
Arguments Throws {A} e.

(** The calls App.tsx makes to its collaborators, as logged. *)
Inductive Call : Set :=
| updateTokenBalance_call (amount : Z)
| addPokemon_call (p : Pokemon.t)
| updatePokemon_call (p : Pokemon.t)
| generatePokemon_call
| generateContent_call (contents : string)
| generateImages_call (prompt : string).

(** The calls that write to the local store. *)
Definition is_store_write (c : Call) : bool :=
  match c with
  | updateTokenBalance_call _ | addPokemon_call _ | updatePokemon_call _ => true
  | _ => false
  end.

(** The calls to the generation client. *)
Definition is_generation_call (c : Call) : bool := negb (is_store_write c).

Definition store_writes (calls : list Call) : list Call :=
  List.filter is_store_write calls.

Definition generation_calls (calls : list Call) : list Call :=
  List.filter is_generation_call calls.

(** Modelled from the spec: the local store behind [indexedDbService]
    (services/indexedDbService.ts is not part of App.tsx): a collection of
    creature records replaced by identity, and a single balance. *)
Record Store : Type := mkStore {
  stored_pokemons : gmap string Pokemon.t;
  stored_balance : Z
}.

(** The object JSON.parse returns for the text of the evolution, at the
    type App.tsx declares for it. *)
Record EvolutionTextData : Set := mkEvolutionTextData {
  text_evolutionName : string;
  text_evolutionDescription : string;
  text_evolutionStats : string
}.

(** The behaviour of everything outside App.tsx during a run.  The n-th
    logged call (counted from 0 over the whole run) settles as the oracle
    says at n. *)
Record Services : Type := mkServices {
  (** a write to the local store: [None] resolves, [Some e] rejects with e *)
  store_rejects : nat -> option Thrown;
  (** [pokemonApiService.generatePokemon()] *)
  generatePokemon_result : nat -> Res Pokemon.t;
  (** [ai.models.generateContent(...)]: the [text] of the response *)
  generateContent_result : nat -> Res string;
  (** [ai.models.generateImages(...)]: the [imageBytes] of the generated images *)
  generateImages_result : nat -> Res (list string);
  (** [String.prototype.trim] *)
  String_trim : string -> string;
  (** [JSON.parse] *)
  JSON_parse : string -> Res EvolutionTextData;
  (** [new Date().toISOString()] when n calls have been logged *)
  Date_now_toISOString : nat -> string;
  (** [new Date(s).getTime()]; [None] is NaN, the time of an invalid date *)
  Date_getTime : string -> option Z;
  (** [a.localeCompare(b)] *)
  String_localeCompare : string -> string -> Z
}.

(** Everything a workflow can change. *)
Record World : Type := mkWorld {
  app : AppState;
  store : Store;
  calls : list Call
}.

(** ** The monad of the handlers *)

Definition M (A : Type) : Type := World -> Res A * World.

Definition ret {A} (a : A) : M A := fun w => (Returns a, w).

Definition bind {A B} (m : M A) (k : A -> M B) : M B :=
  fun w =>
    match m w with
    | (Returns a, w') => k a w'
    | (Throws e, w') => (Throws e, w')
    end.

Definition throw {A} (e : Thrown) : M A := fun w => (Throws e, w).

Declare Scope handler_scope.
Delimit Scope handler_scope with handler.
Notation "x <- m ;; k" := (bind m (fun x => k))
  (at level 100, m at next level, right associativity, only parsing) : handler_scope.
Notation "m ;; k" := (bind m (fun _ => k))
  (at level 100, right associativity, only parsing) : handler_scope.
Open Scope handler_scope.

(** [try { body } catch (error) { handler }] *)
Definition try_catch {A} (body : M A) (handler : Thrown -> M A) : M A :=
  fun w =>
    match body w with
    | (Returns a, w') => (Returns a, w')
    | (Throws e, w') => handler e w'
    end.

(** [try { body } finally { final }]: [final] runs however [body]
    settles, and the outcome is that of [body] unless [final] throws. *)
Definition try_finally {A} (body : M A) (final : M unit) : M A :=
  fun w =>
    match body w with
    | (r, w') =>
        match final w' with
        | (Returns _, w'') => (r, w'')
        | (Throws e, w'') => (Throws e, w'')
        end
    end.

(** [try { body } catch (error) { handler } finally { final }] *)
Definition try_catch_finally {A} (body : M A) (handler : Thrown -> M A)
    (final : M unit) : M A :=
  try_finally (try_catch body handler) final.

(** Reading and writing the React state. *)
Definition modify_app (f : AppState -> AppState) : M unit :=
  fun w => (Returns tt, mkWorld (f (app w)) (store w) (calls w)).

Definition read_app {A} (f : AppState -> A) : M A :=
  fun w => (Returns (f (app w)), w).

(** A state with one cell replaced. *)
Definition with_pokemons (v : list Pokemon.t) (s : AppState) : AppState :=
  mkAppState
    v (tokenBalance s) (isLoading s) (isGeneratingPokemon s)
    (isGeneratingEvolutionForPokemonId s) (message s) (sortOrder s)
    (isModalOpen s) (modalTitle s) (modalContent s) (modalOnConfirm s)
    (isModalConfirmLoading s) (pokemonToResellId s).

Definition with_tokenBalance (v : Z) (s : AppState) : AppState :=
  mkAppState
    (pokemons s) v (isLoading s) (isGeneratingPokemon s)
    (isGeneratingEvolutionForPokemonId s) (message s) (sortOrder s)
    (isModalOpen s) (modalTitle s) (modalContent s) (modalOnConfirm s)
    (isModalConfirmLoading s) (pokemonToResellId s).

Definition with_isLoading (v : bool) (s : AppState) : AppState :=
  mkAppState
    (pokemons s) (tokenBalance s) v (isGeneratingPokemon s)
    (isGeneratingEvolutionForPokemonId s) (message s) (sortOrder s)
    (isModalOpen s) (modalTitle s) (modalContent s) (modalOnConfirm s)
    (isModalConfirmLoading s) (pokemonToResellId s).

Definition with_isGeneratingPokemon (v : bool) (s : AppState) : AppState :=
  mkAppState
    (pokemons s) (tokenBalance s) (isLoading s) v
    (isGeneratingEvolutionForPokemonId s) (message s) (sortOrder s)
    (isModalOpen s) (modalTitle s) (modalContent s) (modalOnConfirm s)
    (isModalConfirmLoading s) (pokemonToResellId s).

Definition with_isGeneratingEvolutionForPokemonId (v : option string) (s : AppState) : AppState :=
  mkAppState
    (pokemons s) (tokenBalance s) (isLoading s) (isGeneratingPokemon s) v
    (message s) (sortOrder s) (isModalOpen s) (modalTitle s) (modalContent s)
    (modalOnConfirm s) (isModalConfirmLoading s) (pokemonToResellId s).

Definition with_message (v : option AppMessage.t) (s : AppState) : AppState :=
  mkAppState
    (pokemons s) (tokenBalance s) (isLoading s) (isGeneratingPokemon s)
    (isGeneratingEvolutionForPokemonId s) v (sortOrder s) (isModalOpen s)
    (modalTitle s) (modalContent s) (modalOnConfirm s)
    (isModalConfirmLoading s) (pokemonToResellId s).

Definition with_sortOrder (v : string) (s : AppState) : AppState :=
  mkAppState
    (pokemons s) (tokenBalance s) (isLoading s) (isGeneratingPokemon s)
    (isGeneratingEvolutionForPokemonId s) (message s) v (isModalOpen s)
    (modalTitle s) (modalContent s) (modalOnConfirm s)
    (isModalConfirmLoading s) (pokemonToResellId s).

Definition with_isModalOpen (v : bool) (s : AppState) : AppState :=
  mkAppState
    (pokemons s) (tokenBalance s) (isLoading s) (isGeneratingPokemon s)
    (isGeneratingEvolutionForPokemonId s) (message s) (sortOrder s) v
    (modalTitle s) (modalContent s) (modalOnConfirm s)
    (isModalConfirmLoading s) (pokemonToResellId s).

Definition with_modalTitle (v : string) (s : AppState) : AppState :=
  mkAppState
    (pokemons s) (tokenBalance s) (isLoading s) (isGeneratingPokemon s)
    (isGeneratingEvolutionForPokemonId s) (message s) (sortOrder s)
    (isModalOpen s) v (modalContent s) (modalOnConfirm s)
    (isModalConfirmLoading s) (pokemonToResellId s).

Definition with_modalContent (v : option ModalContent) (s : AppState) : AppState :=
  mkAppState
    (pokemons s) (tokenBalance s) (isLoading s) (isGeneratingPokemon s)
    (isGeneratingEvolutionForPokemonId s) (message s) (sortOrder s)
    (isModalOpen s) (modalTitle s) v (modalOnConfirm s)
    (isModalConfirmLoading s) (pokemonToResellId s).

Definition with_modalOnConfirm (v : option ConfirmClosure) (s : AppState) : AppState :=
  mkAppState
    (pokemons s) (tokenBalance s) (isLoading s) (isGeneratingPokemon s)
    (isGeneratingEvolutionForPokemonId s) (message s) (sortOrder s)
    (isModalOpen s) (modalTitle s) (modalContent s) v
    (isModalConfirmLoading s) (pokemonToResellId s).

Definition with_isModalConfirmLoading (v : bool) (s : AppState) : AppState :=
  mkAppState
    (pokemons s) (tokenBalance s) (isLoading s) (isGeneratingPokemon s)
    (isGeneratingEvolutionForPokemonId s) (message s) (sortOrder s)
    (isModalOpen s) (modalTitle s) (modalContent s) (modalOnConfirm s) v
    (pokemonToResellId s).

Definition with_pokemonToResellId (v : option string) (s : AppState) : AppState :=
  mkAppState
    (pokemons s) (tokenBalance s) (isLoading s) (isGeneratingPokemon s)
    (isGeneratingEvolutionForPokemonId s) (message s) (sortOrder s)
    (isModalOpen s) (modalTitle s) (modalContent s) (modalOnConfirm s)
    (isModalConfirmLoading s) v.

(** The state setters of the component.  [setPokemons] is only ever called
    with an updater function, the other setters with a value. *)
Definition setPokemons (updater : list Pokemon.t -> list Pokemon.t) : M unit :=
  modify_app (fun s => with_pokemons (updater (pokemons s)) s).

Definition setTokenBalance (v : Z) : M unit := modify_app (with_tokenBalance v).

Definition setIsLoading (v : bool) : M unit := modify_app (with_isLoading v).

Definition setIsGeneratingPokemon (v : bool) : M unit := modify_app (with_isGeneratingPokemon v).

Definition setIsGeneratingEvolutionForPokemonId (v : option string) : M unit := modify_app (with_isGeneratingEvolutionForPokemonId v).

Definition setMessage (v : option AppMessage.t) : M unit := modify_app (with_message v).

Definition setSortOrder (v : string) : M unit := modify_app (with_sortOrder v).

Definition setIsModalOpen (v : bool) : M unit := modify_app (with_isModalOpen v).

Definition setModalTitle (v : string) : M unit := modify_app (with_modalTitle v).

Definition setModalContent (v : option ModalContent) : M unit := modify_app (with_modalContent v).

Definition setModalOnConfirm (v : option ConfirmClosure) : M unit := modify_app (with_modalOnConfirm v).

Definition setIsModalConfirmLoading (v : bool) : M unit := modify_app (with_isModalConfirmLoading v).

Definition setPokemonToResellId (v : option string) : M unit := modify_app (with_pokemonToResellId v).

(** [showMessage]: the notification is set at once.  The timer that clears
    it five seconds later is an event of its own and is no part of the
    handler that shows the message. *)
Definition showMessage (type : AppMessage.kind) (text : string) : M unit :=
  setMessage (Some (AppMessage.mk type text)).

(** Logging a call; the result is the index of the call in the run. *)
Definition log_call (c : Call) : M nat :=
  fun w => (Returns (length (calls w)), mkWorld (app w) (store w) (calls w ++ [c])).

(** Modelled from the spec: the three writes of [indexedDbService].  A
    write that resolves has replaced the balance, or the record of that
    identity; a write that rejects has left the store as it was. *)
Module indexedDbService.
Section WithServices.
Variable env : Services.

Definition write (c : Call) (update : Store -> Store) : M unit :=
  n <- log_call c ;;
  match store_rejects env n with
  | Some e => throw e
  | None => fun w => (Returns tt, mkWorld (app w) (update (store w)) (calls w))
  end.

Definition updateTokenBalance (amount : Z) : M unit :=
  write (updateTokenBalance_call amount)
    (fun st => mkStore (stored_pokemons st) amount).

Definition addPokemon (p : Pokemon.t) : M unit :=
  write (addPokemon_call p)
    (fun st => mkStore (<[Pokemon.id p := p]> (stored_pokemons st)) (stored_balance st)).

Definition updatePokemon (p : Pokemon.t) : M unit :=
  write (updatePokemon_call p)
    (fun st => mkStore (<[Pokemon.id p := p]> (stored_pokemons st)) (stored_balance st)).
End WithServices.
End indexedDbService.

(** The generation client: each call is logged and settles as the oracle
    says. *)
Module pokemonApiService.
Definition generatePokemon (env : Services) : M Pokemon.t :=
  n <- log_call generatePokemon_call ;;
  match generatePokemon_result env n with
  | Returns p => ret p
  | Throws e => throw e
  end.
End pokemonApiService.

Module ai_models.
Definition generateContent (env : Services) (contents : string) : M string :=
  n <- log_call (generateContent_call contents) ;;
  match generateContent_result env n with
  | Returns text => ret text
  | Throws e => throw e
  end.

Definition generateImages (env : Services) (prompt : string) : M (list string) :=
  n <- log_call (generateImages_call prompt) ;;
  match generateImages_result env n with
  | Returns images => ret images
  | Throws e => throw e
  end.
End ai_models.

(** ** The handlers of the component *)

Section Handlers.
Variable env : Services.

(** [handleGeneratePokemon], run from a render whose balance is the
    current one. *)
Definition handleGeneratePokemon : M unit :=
  tokenBalance <- read_app tokenBalance ;;
  if (tokenBalance <? GENERATION_COST)%Z then
    showMessage AppMessage.warning
      ("You need " ++ pretty GENERATION_COST
       ++ " tokens to generate a Pokémon. Current balance: "
       ++ pretty tokenBalance ++ ".")
  else
    (setIsGeneratingPokemon true ;;
     let originalTokenBalance := tokenBalance in
     try_catch_finally
       (let newBalanceAfterDeduction := originalTokenBalance - GENERATION_COST in
        setTokenBalance newBalanceAfterDeduction ;;
        indexedDbService.updateTokenBalance env newBalanceAfterDeduction ;;
        newPokemon <- pokemonApiService.generatePokemon env ;;
        indexedDbService.addPokemon env newPokemon ;;
        setPokemons (fun prevPokemons => newPokemon :: prevPokemons) ;;
        showMessage AppMessage.success
          ("Awesome! You generated a new Pokémon: " ++ Pokemon.name newPokemon
           ++ " (" ++ PokemonRarity.render (Pokemon.rarity newPokemon) ++ ")!"))
       (fun error =>
          let revertedBalance := originalTokenBalance in
          setTokenBalance revertedBalance ;;
          indexedDbService.updateTokenBalance env revertedBalance ;;
          showMessage AppMessage.error
            ("Failed to generate Pokémon: " ++ error_text error
             ++ ". Tokens refunded."))
       (setIsGeneratingPokemon false)).

Definition textPrompt (pokemon : Pokemon.t) : string :=
  "Given the Pokémon named '" ++ Pokemon.name pokemon ++ "' with rarity '"
  ++ PokemonRarity.render (Pokemon.rarity pokemon)
  ++ "', create a concept for its evolution. Provide a new, coherent name for the evolution, a brief description of its appearance and abilities, and a short summary of its key stats. Format the response as a JSON object with 'evolutionName' (string), 'evolutionDescription' (string), and 'evolutionStats' (string) fields.".

Definition imagePrompt (pokemon : Pokemon.t) (evolutionName : string) : string :=
  "Generate a highly detailed and stylized image of the evolved form of a Pokémon named '"
  ++ Pokemon.name pokemon ++ "'. The evolution, named '" ++ evolutionName
  ++ "', should clearly reflect its origin but appear more powerful, mature, and visually distinct, incorporating design elements suggested by its original form and its rarity '"
  ++ PokemonRarity.render (Pokemon.rarity pokemon)
  ++ "'. Focus on a vibrant, eye-catching style.".

(** [pokemons.map((p) => (p.id === updatedPokemon.id ? updatedPokemon : p))] *)
Definition replace_by_id (updatedPokemon : Pokemon.t) (prevPokemons : list Pokemon.t)
    : list Pokemon.t :=
  List.map (fun p => if String.eqb (Pokemon.id p) (Pokemon.id updatedPokemon)
                     then updatedPokemon else p) prevPokemons.

(** [handleGenerateEvolution pokemon]; [pokemon] is the record of the
    card that was clicked. *)
Definition handleGenerateEvolution (pokemon : Pokemon.t) : M unit :=
  setIsGeneratingEvolutionForPokemonId (Some (Pokemon.id pokemon)) ;;
  try_catch_finally
    (textResponse_text <- ai_models.generateContent env (textPrompt pokemon) ;;
     evolutionTextData <-
       try_catch
         (match JSON_parse env (String_trim env textResponse_text) with
          | Returns data => ret data
          | Throws parseError => throw parseError
          end)
         (fun parseError =>
            throw (new_Error
              ("Failed to parse evolution text response from AI: "
               ++ String_of parseError ++ ". Raw response: " ++ textResponse_text))) ;;
     let evolutionName := text_evolutionName evolutionTextData in
     let evolutionDescription := text_evolutionDescription evolutionTextData in
     let evolutionStats := text_evolutionStats evolutionTextData in
     generatedImages <- ai_models.generateImages env (imagePrompt pokemon evolutionName) ;;
     evolutionImageBase64 <-
       match generatedImages with
       | image :: _ => ret image
       | [] => throw (ErrorObject "TypeError"
                 "Cannot read properties of undefined (reading 'image')")
       end ;;
     now <- (fun w => (Returns (Date_now_toISOString env (length (calls w))), w)) ;;
     let newEvolution :=
       PokemonEvolution.mk evolutionName evolutionDescription evolutionStats
         evolutionImageBase64 now in
     let updatedPokemon := Pokemon.with_evolution pokemon newEvolution in
     indexedDbService.updatePokemon env updatedPokemon ;;
     setPokemons (replace_by_id updatedPokemon) ;;
     showMessage AppMessage.success
       ("Evolution created for " ++ Pokemon.name pokemon ++ "! Meet "
        ++ evolutionName ++ "!"))
    (fun error =>
       showMessage AppMessage.error
         ("Failed to generate evolution for " ++ Pokemon.name pokemon ++ ": "
          ++ error_text error ++ ". Please check the console for more details."))
    (setIsGeneratingEvolutionForPokemonId None).

Definition closeModal : M unit :=
  setIsModalOpen false ;;
  setPokemonToResellId None ;;
  setModalTitle "" ;;
  setModalContent None ;;
  setModalOnConfirm None ;;
  setIsModalConfirmLoading false.

(** [pokemons.find(p => p.id === pokemonId)] *)
Definition find_by_id (pokemonId : string) (pokemons : list Pokemon.t)
    : option Pokemon.t :=
  List.find (fun p => String.eqb (Pokemon.id p) pokemonId) pokemons.

(** The body of the closure [onConfirmAction]: [pokemons], [tokenBalance]
    and [pokemonId] are the captured bindings, the updater given to
    [setPokemons] is applied to the state of the moment. *)
Definition onConfirmAction (closure : ConfirmClosure) : M unit :=
  let pokemons := captured_pokemons closure in
  let tokenBalance := captured_tokenBalance closure in
  let pokemonId := captured_pokemonId closure in
  setIsModalConfirmLoading true ;;
  try_catch_finally
    (let pokemonToResell := find_by_id pokemonId pokemons in
     match pokemonToResell with
     | Some pokemonToResell =>
         let updatedPokemon := Pokemon.with_status pokemonToResell PokemonStatus.RESOLD in
         indexedDbService.updatePokemon env updatedPokemon ;;
         let currentResellValue :=
           getRarityResellValue (Tier (Pokemon.rarity pokemonToResell)) in
         let newBalance := tokenBalance + currentResellValue in
         indexedDbService.updateTokenBalance env newBalance ;;
         setPokemons (replace_by_id updatedPokemon) ;;
         setTokenBalance newBalance ;;
         showMessage AppMessage.success
           (Pokemon.name pokemonToResell ++ " resold successfully! You gained "
            ++ pretty currentResellValue ++ " tokens.")
     | None => ret tt
     end)
    (fun error =>
       showMessage AppMessage.error
         ("Failed to resell Pokémon: " ++ error_text error))
    (setIsModalConfirmLoading false ;;
     closeModal).

(** [handleResellConfirmation pokemonId pokemonName], run from a render
    whose collection and balance are the current ones: these are the
    values the new closure captures. *)
Definition handleResellConfirmation (pokemonId pokemonName : string) : M unit :=
  pokemons <- read_app pokemons ;;
  tokenBalance <- read_app tokenBalance ;;
  match find_by_id pokemonId pokemons with
  | None => showMessage AppMessage.error "Could not find the Pokémon to resell."
  | Some pokemonToConfirm =>
      let resellValue := getRarityResellValue (Tier (Pokemon.rarity pokemonToConfirm)) in
      setPokemonToResellId (Some pokemonId) ;;
      setModalTitle "Resell Pokémon" ;;
      setModalContent (Some (mkModalContent pokemonName resellValue)) ;;
      setModalOnConfirm (Some (mkConfirmClosure pokemons tokenBalance pokemonId)) ;;
      setIsModalOpen true
  end.

(** Modelled from the spec: the confirm control of the confirmation gate
    (components/Modal.tsx is imported by App.tsx, not part of it).  It runs
    the confirm action the gate holds, the closure in [modalOnConfirm]. *)
Definition Modal_onConfirm : M unit :=
  onConfirm <- read_app modalOnConfirm ;;
  match onConfirm with
  | Some closure => onConfirmAction closure
  | None => ret tt
  end.
End Handlers.

(** Running a handler: the world it leaves. *)
Definition run {A} (m : M A) (w : World) : World := snd (m w).
Definition outcome {A} (m : M A) (w : World) : Res A := fst (m w).

(** The calls a handler added to the log, given the log before it ran. *)
Definition calls_since (before after : World) : list Call :=
  drop (length (calls before)) (calls after).

(** [hay.includes(needle)], as a proposition. *)
Definition includes (hay needle : string) : Prop :=
  exists before after, hay = before ++ needle ++ after.

(** ** The display ordering *)

(** [Array.prototype.sort] is the one operation of the component that
    changes an array in place, so for the display ordering arrays are
    objects in a heap: the heap is the list of the arrays allocated so far,
    and the reference to an array is its index in that list. *)

(** [[...source]]: a new array with the elements of [source]. *)
Definition Array_spread (source : nat) (heap : list (list Pokemon.t))
    : option (nat * list (list Pokemon.t)) :=
  match heap !! source with
  | Some elements => Some (length heap, (heap ++ [elements])%list)
  | None => None
  end.

(** The number a comparison function returns; [None] is NaN. *)
Definition Number_sub (x y : option Z) : option Z :=
  match x, y with
  | Some a, Some b => Some (a - b)
  | _, _ => None
  end.

(** SortCompare of ECMAScript: the result of the comparison function, with
    NaN read as 0. *)
Definition SortCompare (compareFn : Pokemon.t -> Pokemon.t -> option Z)
    (x y : Pokemon.t) : Z :=
  match compareFn x y with
  | Some v => v
  | None => 0
  end.

(** The order [Array.prototype.sort] leaves.  ECMAScript fixes it for a
    consistent comparison function: the elements in ascending order of
    SortCompare, equal elements in their original order (the sort is
    stable).  Insertion from the right computes that order: an element goes
    in front of the first element of the sorted rest that it does not
    exceed. *)
Fixpoint sort_insert (compareFn : Pokemon.t -> Pokemon.t -> option Z)
    (x : Pokemon.t) (sorted : list Pokemon.t) : list Pokemon.t :=
  match sorted with
  | [] => [x]
  | y :: rest =>
      if (0 <? SortCompare compareFn x y)%Z
      then y :: sort_insert compareFn x rest
      else x :: y :: rest
  end.

Fixpoint sort_elements (compareFn : Pokemon.t -> Pokemon.t -> option Z)
    (elements : list Pokemon.t) : list Pokemon.t :=
  match elements with
  | [] => []
  | x :: rest => sort_insert compareFn x (sort_elements compareFn rest)
  end.

(** [target.sort(compareFn)]: the array at [target] is reordered in place,
    and the result is the reference [target] itself. *)
Definition Array_sort (compareFn : Pokemon.t -> Pokemon.t -> option Z)
    (target : nat) (heap : list (list Pokemon.t))
    : option (nat * list (list Pokemon.t)) :=
  match heap !! target with
  | Some elements => Some (target, <[target := sort_elements compareFn elements]> heap)
  | None => None
  end.

(** [new Date(p.generatedAt).getTime()] *)
Definition getTime (env : Services) (p : Pokemon.t) : option Z :=
  Date_getTime env (Pokemon.generatedAt p).

(** The computation memoised as [sortedPokemons]; [pokemons] is the
    reference held by the state.  The result is [None] only for a
    reference to no array. *)
Definition sortedPokemons (env : Services) (pokemons : nat) (sortOrder : string)
    (heap : list (list Pokemon.t)) : option (nat * list (list Pokemon.t)) :=
  match Array_spread pokemons heap with
  | None => None
  | Some (pokemonsToSort, heap) =>
      if String.eqb sortOrder "rarity-desc" then
        Array_sort (fun a b => Some (rarityOrderMap (Pokemon.rarity b)
                                     - rarityOrderMap (Pokemon.rarity a)))
          pokemonsToSort heap
      else if String.eqb sortOrder "rarity-asc" then
        Array_sort (fun a b => Some (rarityOrderMap (Pokemon.rarity a)
                                     - rarityOrderMap (Pokemon.rarity b)))
          pokemonsToSort heap
      else if String.eqb sortOrder "name-asc" then
        Array_sort (fun a b => Some (String_localeCompare env (Pokemon.name a) (Pokemon.name b)))
          pokemonsToSort heap
      else if String.eqb sortOrder "name-desc" then
        Array_sort (fun a b => Some (String_localeCompare env (Pokemon.name b) (Pokemon.name a)))
          pokemonsToSort heap
      else if String.eqb sortOrder "date-asc" then
        Array_sort (fun a b => Number_sub (getTime env a) (getTime env b))
          pokemonsToSort heap
      else
        Array_sort (fun a b => Number_sub (getTime env b) (getTime env a))
          pokemonsToSort heap
  end.




(** [localeCompare] as a consistent comparison: of two texts one does not
    exceed the other, and not exceeding is transitive. *)
Definition consistent_comparison (compare : string -> string -> Z) : Prop :=
  (forall a b, 0 < compare a b -> compare b a <= 0)
  /\ (forall a b c, compare a b <= 0 -> compare b c <= 0 -> compare a c <= 0).

(** Every creation time stamp of the collection is a valid date. *)
Definition valid_dates (env : Services) (collection : list Pokemon.t) : Prop :=
  Forall (fun p => is_Some (getTime env p)) collection.


(** The comparison function each branch of the [switch] passes to [sort]. *)
Definition compareFn_of (env : Services) (sortOrder : string)
    : Pokemon.t -> Pokemon.t -> option Z :=
  if String.eqb sortOrder "rarity-desc" then
    fun a b => Some (rarityOrderMap (Pokemon.rarity b) - rarityOrderMap (Pokemon.rarity a))
  else if String.eqb sortOrder "rarity-asc" then
    fun a b => Some (rarityOrderMap (Pokemon.rarity a) - rarityOrderMap (Pokemon.rarity b))
  else if String.eqb sortOrder "name-asc" then
    fun a b => Some (String_localeCompare env (Pokemon.name a) (Pokemon.name b))
  else if String.eqb sortOrder "name-desc" then
    fun a b => Some (String_localeCompare env (Pokemon.name b) (Pokemon.name a))
  else if String.eqb sortOrder "date-asc" then
    fun a b => Number_sub (getTime env a) (getTime env b)
  else
    fun a b => Number_sub (getTime env b) (getTime env a).

(** ** Vocabulary of the statements *)

(** The generation call throws, or it returns and the write of the new
    record rejects: the two failures after the debit.  The debit is call
    number [length (calls w)] of the run, the generation the next one. *)
Definition generation_throws (env : Services) (w : World) (e : Thrown) : Prop :=
  generatePokemon_result env (S (length (calls w))) = Throws e.

Definition persistence_throws (env : Services) (w : World) (e : Thrown) : Prop :=
  exists p, generatePokemon_result env (S (length (calls w))) = Returns p
            /\ store_rejects env (S (S (length (calls w)))) = Some e.

(** The index, in the log, of the write that refunds the tokens. *)
Definition refund_index (env : Services) (w : World) : nat :=
  match generatePokemon_result env (S (length (calls w))) with
  | Throws _ => S (S (length (calls w)))
  | Returns _ => S (S (S (length (calls w))))
  end.

(** An error notification that says the tokens were refunded. *)
Definition refund_notified (s : AppState) : Prop :=
  exists text, message s = Some (AppMessage.mk AppMessage.error text)
               /\ includes text "Tokens refunded.".

(** The full rollback: balance restored in memory and in the store,
    collection untouched, refund notified. *)
Definition rolled_back (w w' : World) : Prop :=
  tokenBalance (app w') = tokenBalance (app w)
  /\ stored_balance (store w') = tokenBalance (app w)
  /\ pokemons (app w') = pokemons (app w)
  /\ refund_notified (app w').

(** The notification of a failed evolution. *)
Definition evolution_failure_text (pokemon : Pokemon.t) (e : Thrown) : string :=
  "Failed to generate evolution for " ++ Pokemon.name pokemon ++ ": "
  ++ error_text e ++ ". Please check the console for more details.".

(** The error raised when the text of the response does not parse. *)
Definition parse_failure (parseError : Thrown) (raw : string) : Thrown :=
  new_Error ("Failed to parse evolution text response from AI: "
             ++ String_of parseError ++ ". Raw response: " ++ raw).

(** The record an evolution attaches. *)
Definition evolved (pokemon : Pokemon.t) (data : EvolutionTextData)
    (image now : string) : Pokemon.t :=
  Pokemon.with_evolution pokemon
    (PokemonEvolution.mk (text_evolutionName data) (text_evolutionDescription data)
       (text_evolutionStats data) image now).

(** The record and the balance a confirmed resell writes: both come from
    the values the closure captured. *)
Definition resold (p : Pokemon.t) : Pokemon.t :=
  Pokemon.with_status p PokemonStatus.RESOLD.

Definition credited (closure : ConfirmClosure) (p : Pokemon.t) : Z :=
  captured_tokenBalance closure + getRarityResellValue (Tier (Pokemon.rarity p)).

(** Opening the confirmation for a creature, then confirming. *)
Definition resell_and_confirm (env : Services) (pokemonId pokemonName : string)
    : M unit :=
  handleResellConfirmation pokemonId pokemonName ;;
  Modal_onConfirm env.

(** ** Concrete runs *)

(** A collection, a balance and collaborators to run the handlers on. *)
Definition pikachu : Pokemon.t :=
  Pokemon.mk "p-001" "Pikachu" PokemonRarity.A PokemonStatus.OWNED
    "2024-05-01T10:00:00.000Z" "cGlrYQ==" None.

Definition eevee : Pokemon.t :=
  Pokemon.mk "p-002" "Eevee" PokemonRarity.C PokemonStatus.OWNED
    "2024-05-02T09:30:00.000Z" "ZWV2ZWU=" None.

Definition zapdos : Pokemon.t :=
  Pokemon.mk "p-003" "Zapdos" PokemonRarity.S_PLUS PokemonStatus.OWNED
    "2024-05-03T08:00:00.000Z" "emFwZG9z" None.

Definition abra : Pokemon.t :=
  Pokemon.mk "p-004" "Abra" PokemonRarity.F PokemonStatus.OWNED
    "2024-05-04T08:00:00.000Z" "YWJyYQ==" None.

Definition app_of (collection : list Pokemon.t) (balance : Z) : AppState :=
  mkAppState collection balance false false None None "date-desc"
    false "" None None false None.

(** A world after loading: the store holds what the state shows. *)
Definition world_of (collection : list Pokemon.t) (balance : Z) : World :=
  mkWorld (app_of collection balance)
    (mkStore (list_to_map (List.map (fun p => (Pokemon.id p, p)) collection)) balance)
    [].

(** The quotation mark, and a member of a JSON object. *)
Definition quote : string := String "034"%char "".

Definition json_member (key value : string) : string :=
  quote ++ key ++ quote ++ ":" ++ quote ++ value ++ quote.

Definition evolution_json : string :=
  "{" ++ json_member "evolutionName" "Raichu" ++ ","
  ++ json_member "evolutionDescription" "A larger tail." ++ ","
  ++ json_member "evolutionStats" "ATK 90" ++ "}".

(** A response that is no JSON. *)
Definition apology : string := "I cannot help with that request.".

Definition parse_evolution (text : string) : Res EvolutionTextData :=
  if String.eqb text evolution_json
  then Returns (mkEvolutionTextData "Raichu" "A larger tail." "ATK 90")
  else Throws (ErrorObject "SyntaxError" "Unexpected token in JSON at position 0").

(** The time, in milliseconds, of the dates the examples use; any other
    text is no date. *)
Definition sample_getTime (text : string) : option Z :=
  if String.eqb text "2024-05-01T10:00:00.000Z" then Some 1714557600000
  else if String.eqb text "2024-05-02T09:30:00.000Z" then Some 1714642200000
  else if String.eqb text "2024-05-03T08:00:00.000Z" then Some 1714723200000
  else if String.eqb text "2024-05-04T08:00:00.000Z" then Some 1714809600000
  else if String.eqb text "2024-06-01T12:00:00.000Z" then Some 1717243200000
  else None.

(** A comparison of texts for the examples: by the codes of their
    characters, the first difference deciding, a proper prefix first. *)
Fixpoint compare_code_units (a b : string) : Z :=
  match a, b with
  | EmptyString, EmptyString => 0
  | EmptyString, String _ _ => -1
  | String _ _, EmptyString => 1
  | String c a', String d b' =>
      let difference := Z.of_N (N_of_ascii c) - Z.of_N (N_of_ascii d) in
      if (difference =? 0)%Z then compare_code_units a' b' else difference
  end.

(** Collaborators that all work: the store accepts every write, the client
    generates [generated], and the evolution text is [evolution_json]. *)
Definition services_up (generated : Pokemon.t) : Services :=
  mkServices (fun _ => None) (fun _ => Returns generated)
    (fun _ => Returns evolution_json) (fun _ => Returns ["cmFpY2h1"])
    (fun text => text) parse_evolution (fun _ => "2024-06-01T12:00:00.000Z")
    sample_getTime compare_code_units.

Definition network_down : Thrown := ErrorObject "Error" "Network request failed".

Definition quota_exceeded : Thrown :=
  ErrorObject "QuotaExceededError" "The quota has been exceeded.".

(** The generation client is down; the store works. *)
Definition services_client_down : Services :=
  mkServices (fun _ => None) (fun _ => Throws network_down)
    (fun _ => Throws network_down) (fun _ => Throws network_down)
    (fun text => text) parse_evolution (fun _ => "2024-06-01T12:00:00.000Z")
    sample_getTime compare_code_units.

(** The text call answers with prose instead of JSON. *)
Definition services_prose : Services :=
  mkServices (fun _ => None) (fun _ => Returns eevee)
    (fun _ => Returns apology) (fun _ => Returns ["cmFpY2h1"])
    (fun text => text) parse_evolution (fun _ => "2024-06-01T12:00:00.000Z")
    sample_getTime compare_code_units.

(** The store accepts the first write of the run and rejects every later
    one; the client works. *)
Definition services_store_fills_up (generated : Pokemon.t) : Services :=
  mkServices (fun n => if Nat.eqb n 0 then None else Some quota_exceeded)
    (fun _ => Returns generated)
    (fun _ => Returns evolution_json) (fun _ => Returns ["cmFpY2h1"])
    (fun text => text) parse_evolution (fun _ => "2024-06-01T12:00:00.000Z")
    sample_getTime compare_code_units.

(** Pikachu with the evolution the working collaborators produce. *)
Definition raichu : PokemonEvolution.t :=
  PokemonEvolution.mk "Raichu" "A larger tail." "ATK 90" "cmFpY2h1"
    "2024-06-01T12:00:00.000Z".

Definition pikachu_evolved : Pokemon.t := Pokemon.with_evolution pikachu raichu.

(** A closure whose collection does not hold the creature it names. *)
Definition closure_without_target : ConfirmClosure :=
  mkConfirmClosure [eevee] 25 "p-001".

(** ** The rest of the component *)

(** [getRarityColor]: the classes of the rarity badge.  As for
    [getRarityResellValue], the [default] branch serves every value that is
    no tier. *)
Definition getRarityColor (rarity : RarityValue) : string :=
  match rarity with
  | Tier PokemonRarity.F => "bg-gray-200 text-gray-800"
  | Tier PokemonRarity.E => "bg-gray-300 text-gray-900"
  | Tier PokemonRarity.D => "bg-blue-100 text-blue-800"
  | Tier PokemonRarity.C => "bg-green-100 text-green-800"
  | Tier PokemonRarity.B => "bg-purple-100 text-purple-800"
  | Tier PokemonRarity.A => "bg-yellow-100 text-yellow-800"
  | Tier PokemonRarity.S => "bg-orange-100 text-orange-800"
  | Tier PokemonRarity.S_PLUS => "bg-red-100 text-red-800 font-bold"
  | Unmapped _ => "bg-gray-100 text-gray-700"
  end.

(** Modelled from the spec: the interface [TokenBalance] of types.ts, the
    object [getTokenBalance] resolves with; App.tsx reads its [amount]. *)
Module TokenBalance.
Record t : Set := mk { amount : Z }.
End TokenBalance.

(** How the two reads of [indexedDbService] settle during one run of
    [fetchAppData]: each resolves with a value or rejects. *)
Record Reads : Set := mkReads {
  getPokemons_result : Res (list Pokemon.t);
  getTokenBalance_result : Res TokenBalance.t
}.

(** Modelled from the spec: the two reads of [indexedDbService].  A read
    changes neither the store nor the log of writes and generation calls. *)
Definition indexedDbService_getPokemons (reads : Reads) : M (list Pokemon.t) :=
  match getPokemons_result reads with
  | Returns fetched => ret fetched
  | Throws e => throw e
  end.

Definition indexedDbService_getTokenBalance (reads : Reads) : M TokenBalance.t :=
  match getTokenBalance_result reads with
  | Returns balance => ret balance
  | Throws e => throw e
  end.

(** [fetchAppData], the effect of mounting the component.
    [setPokemons(fetchedPokemons)] passes a value: it is the constant
    updater. *)
Definition fetchAppData (reads : Reads) : M unit :=
  setIsLoading true ;;
  try_catch_finally
    (fetchedPokemons <- indexedDbService_getPokemons reads ;;
     setPokemons (fun _ => fetchedPokemons) ;;
     balance <- indexedDbService_getTokenBalance reads ;;
     setTokenBalance (TokenBalance.amount balance) ;;
     setMessage None)
    (fun error => showMessage AppMessage.error "Failed to load app data. Please try again.")
    (setIsLoading false).

(** What the page offers, as the JSX computes it from the state. *)

(** [disabled={isGeneratingPokemon || isLoading || tokenBalance < GENERATION_COST}]
    of the generate button. *)
Definition generateButton_disabled (s : AppState) : bool :=
  isGeneratingPokemon s || isLoading s || (tokenBalance s <? GENERATION_COST)%Z.

(** [pokemon.status === PokemonStatus.OWNED]: the condition under which a
    card shows its resell button, and the same condition for its evolve
    button; otherwise the card shows the label Resold. *)
Definition card_offers_actions (pokemon : Pokemon.t) : bool :=
  bool_decide (Pokemon.status pokemon = PokemonStatus.OWNED).

(** The value on the resell button of a card: [Resell (+{resellValue})]. *)
Definition card_resellValue (pokemon : Pokemon.t) : Z :=
  getRarityResellValue (Tier (Pokemon.rarity pokemon)).

(** ** More vocabulary *)

(** The state in memory mirrors the store: the same balance, and every
    creature of the collection stored, as it is, under its identity. *)
Definition mirrors (w : World) : Prop :=
  stored_balance (store w) = tokenBalance (app w)
  /\ forall p, p ∈ pokemons (app w) ->
       stored_pokemons (store w) !! Pokemon.id p = Some p.

(** The store accepts every write. *)
Definition store_accepts (env : Services) : Prop :=
  forall n, store_rejects env n = None.

(** No confirmation is pending: the cells of the dialog have the values
    [closeModal] gives them. *)
Definition modal_idle (s : AppState) : Prop :=
  isModalOpen s = false /\ pokemonToResellId s = None /\ modalTitle s = ""
  /\ modalContent s = None /\ modalOnConfirm s = None
  /\ isModalConfirmLoading s = false.

(** A generation followed by the resell, opened and confirmed, of the
    creature [pokemonId] named [pokemonName]. *)
Definition generate_then_resell (env : Services) (pokemonId pokemonName : string)
    : M unit :=
  handleGeneratePokemon env ;;
  resell_and_confirm env pokemonId pokemonName.

(** The creatures of a collection that have a given rarity, in order. *)
Definition of_rarity (r : PokemonRarity.t) (collection : list Pokemon.t)
    : list Pokemon.t :=
  List.filter (fun p => bool_decide (Pokemon.rarity p = r)) collection.

(** More collaborators for the examples. *)

(** The store rejects every write; the client works. *)
Definition services_store_down (generated : Pokemon.t) : Services :=
  mkServices (fun _ => Some quota_exceeded) (fun _ => Returns generated)
    (fun _ => Returns evolution_json) (fun _ => Returns ["cmFpY2h1"])
    (fun text => text) parse_evolution (fun _ => "2024-06-01T12:00:00.000Z")
    sample_getTime compare_code_units.

(** The image call resolves with no image. *)
Definition services_no_image : Services :=
  mkServices (fun _ => None) (fun _ => Returns eevee)
    (fun _ => Returns evolution_json) (fun _ => Returns [])
    (fun text => text) parse_evolution (fun _ => "2024-06-01T12:00:00.000Z")
    sample_getTime compare_code_units.

(** The store accepts the first write of the run and rejects the second. *)
Definition services_second_write_fails : Services :=
  mkServices (fun n => if Nat.eqb n 1 then Some quota_exceeded else None)
    (fun _ => Returns eevee)
    (fun _ => Returns evolution_json) (fun _ => Returns ["cmFpY2h1"])
    (fun text => text) parse_evolution (fun _ => "2024-06-01T12:00:00.000Z")
    sample_getTime compare_code_units.

(** Reads that resolve, and reads of which the second rejects. *)
Definition reads_up : Reads :=
  mkReads (Returns [eevee; pikachu]) (Returns (TokenBalance.mk 25)).

Definition reads_balance_fails : Reads :=
  mkReads (Returns [eevee; pikachu]) (Throws quota_exceeded).

(** The world of the first render, over an empty store. *)
Definition world_at_mount : World :=
  mkWorld initialAppState (mkStore ∅ 0) [].

(** ** Theorems *)

(** *** The economy rules *)

(** C5: [getRarityResellValue] is the table S+ 25, S 15, A 10, B 5, C 4,
    D 3, E 2, F 1 and gives 1 for any value that is no tier;
    [rarityOrderMap] sends the tiers F, E, D, C, B, A, S, S+ to 0, 1, ..., 7,
    so it is strictly increasing from F = 0 to S+ = 7. *)
Theorem economy_rules :
  List.map (fun r => getRarityResellValue (Tier r)) PokemonRarity.ascending
    = [1; 2; 3; 4; 5; 10; 15; 25]
  /\ (forall raw : string, getRarityResellValue (Unmapped raw) = 1)
  /\ List.map rarityOrderMap PokemonRarity.ascending = [0; 1; 2; 3; 4; 5; 6; 7]
  /\ StronglySorted Z.lt (List.map rarityOrderMap PokemonRarity.ascending)
  /\ (forall r : PokemonRarity.t, r ∈ PokemonRarity.ascending)
  /\ rarityOrderMap PokemonRarity.F = 0
  /\ rarityOrderMap PokemonRarity.S_PLUS = 7.
Proof.
  repeat split.
  - cbn. repeat constructor.
  - intros r. destruct r; unfold PokemonRarity.ascending; set_solver.
Qed.

(** ** Reasoning about runs *)

Lemma length_snoc {A} (l : list A) (x : A) : length (l ++ [x]) = S (length l).
Proof. rewrite length_app. simpl. lia. Qed.

Lemma drop_length_app {A} (l k : list A) : drop (length l) (l ++ k) = k.
Proof. induction l as [|x l IH]; [reflexivity | exact IH]. Qed.

Lemma append_assoc (a b c : string) : (a ++ b) ++ c = a ++ b ++ c.
Proof.
  induction a as [|ch a IH]; [reflexivity |].
  exact (f_equal (String ch) IH).
Qed.

(** One step of symbolic execution: the handlers, the monad and the state
    are evaluated; the oracle, arithmetic and texts are left alone. *)
Ltac run_handler :=
  cbv beta iota zeta delta
    [run outcome calls_since
     handleGeneratePokemon handleGenerateEvolution onConfirmAction
     handleResellConfirmation Modal_onConfirm closeModal resell_and_confirm
     try_catch_finally try_finally try_catch
     indexedDbService.updateTokenBalance indexedDbService.addPokemon
     indexedDbService.updatePokemon indexedDbService.write
     pokemonApiService.generatePokemon ai_models.generateContent
     ai_models.generateImages log_call showMessage
     setPokemons setTokenBalance setIsLoading setIsGeneratingPokemon
     setIsGeneratingEvolutionForPokemonId setMessage setSortOrder
     setIsModalOpen setModalTitle setModalContent setModalOnConfirm
     setIsModalConfirmLoading setPokemonToResellId
     modify_app read_app bind ret throw
     with_pokemons with_tokenBalance with_isLoading with_isGeneratingPokemon
     with_isGeneratingEvolutionForPokemonId with_message with_sortOrder
     with_isModalOpen with_modalTitle with_modalContent with_modalOnConfirm
     with_isModalConfirmLoading with_pokemonToResellId
     app store calls fst snd pokemons tokenBalance isLoading isGeneratingPokemon
     isGeneratingEvolutionForPokemonId message sortOrder isModalOpen modalTitle
     modalContent modalOnConfirm isModalConfirmLoading pokemonToResellId
     stored_pokemons stored_balance captured_pokemons captured_tokenBalance
     captured_pokemonId] in *;
  rewrite ?length_snoc.

(** Settles the test [tokenBalance < GENERATION_COST] from the context. *)
Ltac decide_funds :=
  match goal with
  | |- context [(?b <? GENERATION_COST)%Z] =>
      destruct (Z.ltb_spec b GENERATION_COST); [try lia | try lia]
  end.

(** *** The generation workflow *)

Section Generation.
Variable env : Services.
Variable w : World.

(** With too few tokens the handler is the warning and nothing else. *)
Lemma handleGeneratePokemon_insufficient :
  tokenBalance (app w) < GENERATION_COST ->
  handleGeneratePokemon env w =
    showMessage AppMessage.warning
      ("You need " ++ pretty GENERATION_COST
       ++ " tokens to generate a Pokémon. Current balance: "
       ++ pretty (tokenBalance (app w)) ++ ".") w.
Proof.
  intros Hlt. destruct w as [s st cs].
  run_handler. decide_funds. reflexivity.
Qed.

(** The world a successful generation leaves. *)
Lemma handleGeneratePokemon_success (p : Pokemon.t) :
  GENERATION_COST <= tokenBalance (app w) ->
  store_rejects env (length (calls w)) = None ->
  generatePokemon_result env (S (length (calls w))) = Returns p ->
  store_rejects env (S (S (length (calls w)))) = None ->
  handleGeneratePokemon env w =
    (Returns tt,
     mkWorld
       (mkAppState (p :: pokemons (app w)) (tokenBalance (app w) - GENERATION_COST)
          (isLoading (app w)) false (isGeneratingEvolutionForPokemonId (app w))
          (Some (AppMessage.mk AppMessage.success
             ("Awesome! You generated a new Pokémon: " ++ Pokemon.name p
              ++ " (" ++ PokemonRarity.render (Pokemon.rarity p) ++ ")!")))
          (sortOrder (app w)) (isModalOpen (app w)) (modalTitle (app w))
          (modalContent (app w)) (modalOnConfirm (app w))
          (isModalConfirmLoading (app w)) (pokemonToResellId (app w)))
       (mkStore (<[Pokemon.id p := p]> (stored_pokemons (store w)))
          (tokenBalance (app w) - GENERATION_COST))
       (calls w ++ [updateTokenBalance_call (tokenBalance (app w) - GENERATION_COST);
                    generatePokemon_call; addPokemon_call p])).
Proof.
  intros Hb H1 H2 H3. destruct w as [s st cs].
  run_handler. decide_funds.
  run_handler. rewrite H1. run_handler. rewrite H2. run_handler. rewrite H3.
  run_handler. rewrite <- !app_assoc. reflexivity.
Qed.

(** What is in memory after a failed generation, whether or not the
    refund could be written. *)
Lemma handleGeneratePokemon_failure_memory (e : Thrown) :
  GENERATION_COST <= tokenBalance (app w) ->
  store_rejects env (length (calls w)) = None ->
  generation_throws env w e \/ persistence_throws env w e ->
  let w' := run (handleGeneratePokemon env) w in
  tokenBalance (app w') = tokenBalance (app w) /\ pokemons (app w') = pokemons (app w).
Proof.
  unfold generation_throws, persistence_throws.
  intros Hb H1 Hfail. destruct w as [s st cs].
  run_handler. decide_funds. run_handler. rewrite H1.
  destruct Hfail as [H2 | (p & H2 & H3)]; run_handler; rewrite H2; run_handler.
  - destruct (store_rejects env (S (S (length cs)))); split; reflexivity.
  - rewrite H3. run_handler.
    destruct (store_rejects env (S (S (S (length cs))))); split; reflexivity.
Qed.

(** The store and the notification after a failed generation whose refund
    was written. *)
Lemma handleGeneratePokemon_failure_refunded (e : Thrown) :
  GENERATION_COST <= tokenBalance (app w) ->
  store_rejects env (length (calls w)) = None ->
  generation_throws env w e \/ persistence_throws env w e ->
  store_rejects env (refund_index env w) = None ->
  let w' := run (handleGeneratePokemon env) w in
  stored_balance (store w') = tokenBalance (app w)
  /\ message (app w') =
       Some (AppMessage.mk AppMessage.error
               ("Failed to generate Pokémon: " ++ error_text e ++ ". Tokens refunded.")).
Proof.
  unfold generation_throws, persistence_throws, refund_index.
  intros Hb H1 Hfail Hrefund. destruct w as [s st cs].
  run_handler. decide_funds. run_handler. rewrite H1.
  destruct Hfail as [H2 | (p & H2 & H3)]; run_handler; rewrite H2 in *; run_handler.
  - rewrite Hrefund. split; reflexivity.
  - rewrite H3. run_handler. rewrite Hrefund. split; reflexivity.
Qed.
End Generation.

(** C4: with a balance below the generation cost of 10 the generation
    workflow ends at once: it logs no call (no store write, no generation
    call), leaves the store as it was, and changes nothing in memory but
    the notification, which becomes a warning. *)
Theorem generation_insufficient_funds (env : Services) (w : World) :
  tokenBalance (app w) < 10 ->
  let w' := run (handleGeneratePokemon env) w in
  outcome (handleGeneratePokemon env) w = Returns tt
  /\ calls w' = calls w
  /\ store_writes (calls_since w w') = []
  /\ generation_calls (calls_since w w') = []
  /\ store w' = store w
  /\ exists text,
       app w' = with_message (Some (AppMessage.mk AppMessage.warning text)) (app w).
Proof.
  intros Hlt w'. subst w'. unfold run, outcome, calls_since.
  rewrite handleGeneratePokemon_insufficient by exact Hlt.
  run_handler. rewrite drop_all.
  repeat split; eauto.
Qed.

Lemma generation_insufficient_funds_witness :
  let w := world_of [pikachu] 9 in
  let w' := run (handleGeneratePokemon (services_up eevee)) w in
  outcome (handleGeneratePokemon (services_up eevee)) w = Returns tt
  /\ calls w' = calls w
  /\ store_writes (calls_since w w') = []
  /\ generation_calls (calls_since w w') = []
  /\ store w' = store w
  /\ exists text,
       app w' = with_message (Some (AppMessage.mk AppMessage.warning text)) (app w).
Proof.
  apply (generation_insufficient_funds (services_up eevee) (world_of [pikachu] 9)).
  vm_compute. reflexivity.
Defined.

(** C3: a successful generation lowers the balance by exactly 10, puts
    exactly one record, the generated one, at the front of the collection,
    and logs three calls in this order: the write of the lowered balance,
    the generation call, the write of the record; so the store is written
    exactly twice, the balance first and before the client is invoked. *)
Theorem generation_success (env : Services) (w : World) (p : Pokemon.t) :
  10 <= tokenBalance (app w) ->
  store_rejects env (length (calls w)) = None ->
  generatePokemon_result env (S (length (calls w))) = Returns p ->
  store_rejects env (S (S (length (calls w)))) = None ->
  let w' := run (handleGeneratePokemon env) w in
  let lowered := tokenBalance (app w) - 10 in
  tokenBalance (app w') = lowered
  /\ pokemons (app w') = p :: pokemons (app w)
  /\ calls_since w w' =
       [updateTokenBalance_call lowered; generatePokemon_call; addPokemon_call p]
  /\ store_writes (calls_since w w') =
       [updateTokenBalance_call lowered; addPokemon_call p]
  /\ stored_balance (store w') = lowered
  /\ stored_pokemons (store w') !! Pokemon.id p = Some p.
Proof.
  intros Hb H1 H2 H3 w' lowered. subst w' lowered. unfold run, calls_since.
  rewrite (handleGeneratePokemon_success env w p) by assumption.
  cbn [snd app store calls tokenBalance pokemons stored_balance stored_pokemons].
  rewrite drop_length_app.
  repeat split; try reflexivity. apply lookup_insert_eq.
Qed.

Lemma generation_success_witness :
  let w := world_of [pikachu] 25 in
  let w' := run (handleGeneratePokemon (services_up eevee)) w in
  tokenBalance (app w') = 15
  /\ pokemons (app w') = [eevee; pikachu]
  /\ calls_since w w' =
       [updateTokenBalance_call 15; generatePokemon_call; addPokemon_call eevee]
  /\ store_writes (calls_since w w') =
       [updateTokenBalance_call 15; addPokemon_call eevee]
  /\ stored_balance (store w') = 15
  /\ stored_pokemons (store w') !! "p-002" = Some eevee.
Proof.
  apply (generation_success (services_up eevee) (world_of [pikachu] 25) eevee).
  - vm_compute. discriminate.
  - reflexivity.
  - reflexivity.
  - reflexivity.
Defined.

(** C2 as stated fails: the record write rejects after the debit, and so
    does the write of the refund; the store keeps the lowered balance and
    no notification is shown. *)
Lemma generation_rollback_counterexample :
  let env := services_store_fills_up eevee in
  let w := world_of [pikachu] 25 in
  let w' := run (handleGeneratePokemon env) w in
  persistence_throws env w quota_exceeded
  /\ stored_balance (store w') = 15
  /\ message (app w') = None
  /\ ~ rolled_back w w'.
Proof.
  repeat split.
  - exists eevee. split; reflexivity.
  - intros (_ & Hstore & _). vm_compute in Hstore. discriminate.
Qed.

(** C2, amended: if the generation call throws, or the write of the new
    record does, the balance in memory is restored to its value before the
    debit and the collection in memory is unchanged; and if the write of
    the refund resolves, the balance in the store is restored to that value
    too and an error notification says that the tokens were refunded. *)
Theorem generation_failure_rollback (env : Services) (w : World) (e : Thrown) :
  10 <= tokenBalance (app w) ->
  store_rejects env (length (calls w)) = None ->
  generation_throws env w e \/ persistence_throws env w e ->
  let w' := run (handleGeneratePokemon env) w in
  tokenBalance (app w') = tokenBalance (app w)
  /\ pokemons (app w') = pokemons (app w)
  /\ (store_rejects env (refund_index env w) = None -> rolled_back w w').
Proof.
  intros Hb H1 Hfail w'.
  destruct (handleGeneratePokemon_failure_memory env w e Hb H1 Hfail) as [Hbal Hcol].
  split; [exact Hbal |]. split; [exact Hcol |].
  intros Hrefund.
  destruct (handleGeneratePokemon_failure_refunded env w e Hb H1 Hfail Hrefund)
    as [Hstore Hmsg].
  repeat split; try assumption.
  exists ("Failed to generate Pokémon: " ++ error_text e ++ ". Tokens refunded.").
  split; [exact Hmsg |].
  exists ("Failed to generate Pokémon: " ++ error_text e ++ ". "), "".
  rewrite !append_assoc. reflexivity.
Qed.

Lemma generation_failure_rollback_witness :
  let env := services_client_down in
  let w := world_of [pikachu] 25 in
  let w' := run (handleGeneratePokemon env) w in
  tokenBalance (app w') = 25
  /\ pokemons (app w') = [pikachu]
  /\ (store_rejects env (refund_index env w) = None -> rolled_back w w').
Proof.
  apply (generation_failure_rollback services_client_down (world_of [pikachu] 25)
           network_down).
  - vm_compute. discriminate.
  - reflexivity.
  - left. reflexivity.
Defined.

(** *** The evolution workflow *)

Section Evolution.
Variable env : Services.
Variable w : World.
Variable pokemon : Pokemon.t.

(** The world left when the text does not parse. *)
Lemma handleGenerateEvolution_parse_failure (raw : string) (parseError : Thrown) :
  generateContent_result env (length (calls w)) = Returns raw ->
  JSON_parse env (String_trim env raw) = Throws parseError ->
  handleGenerateEvolution env pokemon w =
    (Returns tt,
     mkWorld
       (with_isGeneratingEvolutionForPokemonId None
          (with_message
             (Some (AppMessage.mk AppMessage.error
                      (evolution_failure_text pokemon (parse_failure parseError raw))))
             (app w)))
       (store w)
       (calls w ++ [generateContent_call (textPrompt pokemon)])).
Proof.
  intros Htext Hparse. destruct w as [s st cs].
  run_handler. rewrite Htext, Hparse. reflexivity.
Qed.

(** The world a successful evolution leaves. *)
Lemma handleGenerateEvolution_success (raw : string) (data : EvolutionTextData)
    (image : string) (others : list string) :
  generateContent_result env (length (calls w)) = Returns raw ->
  JSON_parse env (String_trim env raw) = Returns data ->
  generateImages_result env (S (length (calls w))) = Returns (image :: others) ->
  store_rejects env (S (S (length (calls w)))) = None ->
  let updatedPokemon :=
    evolved pokemon data image (Date_now_toISOString env (S (S (length (calls w))))) in
  handleGenerateEvolution env pokemon w =
    (Returns tt,
     mkWorld
       (with_isGeneratingEvolutionForPokemonId None
          (with_message
             (Some (AppMessage.mk AppMessage.success
                      ("Evolution created for " ++ Pokemon.name pokemon ++ "! Meet "
                       ++ text_evolutionName data ++ "!")))
             (with_pokemons (replace_by_id updatedPokemon (pokemons (app w))) (app w))))
       (mkStore (<[Pokemon.id pokemon := updatedPokemon]> (stored_pokemons (store w)))
          (stored_balance (store w)))
       (calls w ++ [generateContent_call (textPrompt pokemon);
                    generateImages_call (imagePrompt pokemon (text_evolutionName data));
                    updatePokemon_call updatedPokemon])).
Proof.
  intros Htext Hparse Himage Hwrite. destruct w as [s st cs].
  run_handler. rewrite Htext, Hparse. run_handler.
  rewrite Himage. run_handler. rewrite Hwrite. run_handler.
  rewrite <- !app_assoc. reflexivity.
Qed.
End Evolution.

(** An element of the collection after a replacement by identity. *)
Lemma lookup_replace_by_id (updatedPokemon : Pokemon.t) (collection : list Pokemon.t)
    (i : nat) :
  replace_by_id updatedPokemon collection !! i =
    (fun p => if String.eqb (Pokemon.id p) (Pokemon.id updatedPokemon)
              then updatedPokemon else p) <$> collection !! i.
Proof. unfold replace_by_id. apply list_lookup_fmap. Qed.

Lemma length_replace_by_id (updatedPokemon : Pokemon.t) (collection : list Pokemon.t) :
  length (replace_by_id updatedPokemon collection) = length collection.
Proof. unfold replace_by_id. apply length_map. Qed.

(** C6: when the text of the response is no JSON, the evolution workflow
    stops after the text call (no image call, no store write), leaves the
    store and the collection in memory as they were, and shows an error
    notification whose text includes the raw response. *)
Theorem evolution_parse_failure (env : Services) (w : World) (pokemon : Pokemon.t)
    (raw : string) (parseError : Thrown) :
  generateContent_result env (length (calls w)) = Returns raw ->
  JSON_parse env (String_trim env raw) = Throws parseError ->
  let w' := run (handleGenerateEvolution env pokemon) w in
  calls_since w w' = [generateContent_call (textPrompt pokemon)]
  /\ store_writes (calls_since w w') = []
  /\ store w' = store w
  /\ pokemons (app w') = pokemons (app w)
  /\ tokenBalance (app w') = tokenBalance (app w)
  /\ exists text, message (app w') = Some (AppMessage.mk AppMessage.error text)
                  /\ includes text raw.
Proof.
  intros Htext Hparse w'. subst w'. unfold run, calls_since.
  rewrite (handleGenerateEvolution_parse_failure env w pokemon raw parseError)
    by assumption.
  cbn [snd app store calls]. rewrite drop_length_app.
  repeat split; try reflexivity.
  eexists. split; [reflexivity |].
  unfold evolution_failure_text, parse_failure, new_Error, error_text.
  exists ("Failed to generate evolution for " ++ Pokemon.name pokemon ++ ": "
          ++ "Failed to parse evolution text response from AI: "
          ++ String_of parseError ++ ". Raw response: "),
         ". Please check the console for more details.".
  rewrite !append_assoc. reflexivity.
Qed.

Lemma evolution_parse_failure_witness :
  let w := world_of [pikachu] 25 in
  let w' := run (handleGenerateEvolution services_prose pikachu) w in
  calls_since w w' = [generateContent_call (textPrompt pikachu)]
  /\ store_writes (calls_since w w') = []
  /\ store w' = store w
  /\ pokemons (app w') = pokemons (app w)
  /\ tokenBalance (app w') = tokenBalance (app w)
  /\ exists text, message (app w') = Some (AppMessage.mk AppMessage.error text)
                  /\ includes text apology.
Proof.
  apply (evolution_parse_failure services_prose (world_of [pikachu] 25) pikachu
           apology (ErrorObject "SyntaxError" "Unexpected token in JSON at position 0")).
  - reflexivity.
  - reflexivity.
Defined.

(** C7: a successful evolution attaches to the record an evolution made of
    the three texts of the text call, the image of the image call and a
    creation time stamp, whatever evolution the record had; it writes the
    store exactly once, the update of that record; it leaves the balance
    alone, in memory and in the store; and in the collection in memory it
    replaces, in place, the records of that identity and no other. *)
Theorem evolution_success (env : Services) (w : World) (pokemon : Pokemon.t)
    (raw : string) (data : EvolutionTextData) (image : string) (others : list string) :
  generateContent_result env (length (calls w)) = Returns raw ->
  JSON_parse env (String_trim env raw) = Returns data ->
  generateImages_result env (S (length (calls w))) = Returns (image :: others) ->
  store_rejects env (S (S (length (calls w)))) = None ->
  let w' := run (handleGenerateEvolution env pokemon) w in
  exists updatedPokemon now,
    updatedPokemon = Pokemon.with_evolution pokemon
      (PokemonEvolution.mk (text_evolutionName data) (text_evolutionDescription data)
         (text_evolutionStats data) image now)
    /\ Pokemon.evolution updatedPokemon =
         Some (PokemonEvolution.mk (text_evolutionName data)
                 (text_evolutionDescription data) (text_evolutionStats data) image now)
    /\ store_writes (calls_since w w') = [updatePokemon_call updatedPokemon]
    /\ stored_pokemons (store w') !! Pokemon.id pokemon = Some updatedPokemon
    /\ tokenBalance (app w') = tokenBalance (app w)
    /\ stored_balance (store w') = stored_balance (store w)
    /\ length (pokemons (app w')) = length (pokemons (app w))
    /\ forall i p, pokemons (app w) !! i = Some p ->
         pokemons (app w') !! i =
           Some (if String.eqb (Pokemon.id p) (Pokemon.id pokemon)
                 then updatedPokemon else p).
Proof.
  intros Htext Hparse Himage Hwrite w'. subst w'. unfold run, calls_since.
  rewrite (handleGenerateEvolution_success env w pokemon raw data image others)
    by assumption.
  cbn [snd app store calls]. rewrite drop_length_app.
  eexists. eexists. split; [reflexivity |].
  run_handler.
  repeat split; try reflexivity.
  - apply lookup_insert_eq.
  - apply length_replace_by_id.
  - intros i p Hi. rewrite lookup_replace_by_id, Hi. reflexivity.
Qed.

Lemma evolution_success_witness :
  let w := world_of [eevee; pikachu] 25 in
  let w' := run (handleGenerateEvolution (services_up eevee) pikachu) w in
  exists updatedPokemon now,
    updatedPokemon = Pokemon.with_evolution pikachu
      (PokemonEvolution.mk "Raichu" "A larger tail." "ATK 90" "cmFpY2h1" now)
    /\ Pokemon.evolution updatedPokemon =
         Some (PokemonEvolution.mk "Raichu" "A larger tail." "ATK 90" "cmFpY2h1" now)
    /\ store_writes (calls_since w w') = [updatePokemon_call updatedPokemon]
    /\ stored_pokemons (store w') !! "p-001" = Some updatedPokemon
    /\ tokenBalance (app w') = 25
    /\ stored_balance (store w') = 25
    /\ length (pokemons (app w')) = 2%nat
    /\ forall i p, [eevee; pikachu] !! i = Some p ->
         pokemons (app w') !! i =
           Some (if String.eqb (Pokemon.id p) "p-001" then updatedPokemon else p).
Proof.
  apply (evolution_success (services_up eevee) (world_of [eevee; pikachu] 25) pikachu
           evolution_json (mkEvolutionTextData "Raichu" "A larger tail." "ATK 90")
           "cmFpY2h1" []).
  - reflexivity.
  - reflexivity.
  - reflexivity.
  - reflexivity.
Defined.

(** *** The resell workflow *)

Lemma find_by_id_Some (pokemonId : string) (collection : list Pokemon.t)
    (p : Pokemon.t) :
  find_by_id pokemonId collection = Some p -> Pokemon.id p = pokemonId.
Proof.
  unfold find_by_id. intros H. apply List.find_some in H as [_ H].
  now apply String.eqb_eq.
Qed.

(** After a replacement by identity the lookup finds the new record. *)
Lemma find_by_id_replace_by_id (updatedPokemon : Pokemon.t)
    (collection : list Pokemon.t) (p : Pokemon.t) :
  find_by_id (Pokemon.id updatedPokemon) collection = Some p ->
  find_by_id (Pokemon.id updatedPokemon) (replace_by_id updatedPokemon collection)
    = Some updatedPokemon.
Proof.
  unfold find_by_id, replace_by_id.
  induction collection as [|q rest IH]; cbn [List.find List.map]; [discriminate |].
  destruct (String.eqb (Pokemon.id q) (Pokemon.id updatedPokemon)) eqn:Hq.
  - intros _. now rewrite String.eqb_refl.
  - rewrite Hq. exact IH.
Qed.

Section Resell.
Variable env : Services.

(** The world a confirmed resell leaves when both writes resolve. *)
Lemma onConfirmAction_success (closure : ConfirmClosure) (w : World) (p : Pokemon.t) :
  find_by_id (captured_pokemonId closure) (captured_pokemons closure) = Some p ->
  store_rejects env (length (calls w)) = None ->
  store_rejects env (S (length (calls w))) = None ->
  onConfirmAction env closure w =
    (Returns tt,
     mkWorld
       (mkAppState (replace_by_id (resold p) (pokemons (app w))) (credited closure p)
          (isLoading (app w)) (isGeneratingPokemon (app w))
          (isGeneratingEvolutionForPokemonId (app w))
          (Some (AppMessage.mk AppMessage.success
             (Pokemon.name p ++ " resold successfully! You gained "
              ++ pretty (getRarityResellValue (Tier (Pokemon.rarity p))) ++ " tokens.")))
          (sortOrder (app w)) false "" None None false None)
       (mkStore (<[Pokemon.id p := resold p]> (stored_pokemons (store w)))
          (credited closure p))
       (calls w ++ [updatePokemon_call (resold p);
                    updateTokenBalance_call (credited closure p)])).
Proof.
  intros Hfind H1 H2. destruct w as [s st cs], closure as [cp cb cid].
  run_handler. rewrite Hfind. run_handler.
  rewrite H1. run_handler. rewrite H2. run_handler.
  rewrite <- !app_assoc. reflexivity.
Qed.

(** The world a confirmation leaves when the lookup finds nothing. *)
Lemma onConfirmAction_not_found (closure : ConfirmClosure) (w : World) :
  find_by_id (captured_pokemonId closure) (captured_pokemons closure) = None ->
  onConfirmAction env closure w =
    (Returns tt,
     mkWorld
       (mkAppState (pokemons (app w)) (tokenBalance (app w))
          (isLoading (app w)) (isGeneratingPokemon (app w))
          (isGeneratingEvolutionForPokemonId (app w)) (message (app w))
          (sortOrder (app w)) false "" None None false None)
       (store w) (calls w)).
Proof.
  intros Hfind. destruct w as [s st cs], closure as [cp cb cid].
  run_handler. rewrite Hfind. reflexivity.
Qed.

(** However the confirmed action settles, the busy flag is cleared and
    the dialog is closed. *)
Lemma onConfirmAction_settles (closure : ConfirmClosure) (w : World) :
  let w' := run (onConfirmAction env closure) w in
  isModalConfirmLoading (app w') = false /\ isModalOpen (app w') = false.
Proof.
  destruct w as [s st cs], closure as [cp cb cid].
  run_handler.
  destruct (find_by_id cid cp) as [p|]; run_handler; [| split; reflexivity].
  destruct (store_rejects env (length cs)); run_handler; [split; reflexivity |].
  destruct (store_rejects env (S (length cs))); run_handler; split; reflexivity.
Qed.

(** The collection and the balance in memory change only when both writes
    have resolved, and then they change together. *)
Lemma onConfirmAction_commits_together (closure : ConfirmClosure) (w : World) :
  let w' := run (onConfirmAction env closure) w in
  (exists p,
     find_by_id (captured_pokemonId closure) (captured_pokemons closure) = Some p
     /\ store_rejects env (length (calls w)) = None
     /\ store_rejects env (S (length (calls w))) = None
     /\ calls_since w w' =
          [updatePokemon_call (resold p); updateTokenBalance_call (credited closure p)]
     /\ pokemons (app w') = replace_by_id (resold p) (pokemons (app w))
     /\ tokenBalance (app w') = credited closure p)
  \/ (pokemons (app w') = pokemons (app w)
      /\ tokenBalance (app w') = tokenBalance (app w)).
Proof.
  intros w'. subst w'.
  destruct (find_by_id (captured_pokemonId closure) (captured_pokemons closure))
    as [p|] eqn:Hfind.
  - destruct (store_rejects env (length (calls w))) as [e1|] eqn:H1;
      [| destruct (store_rejects env (S (length (calls w)))) as [e2|] eqn:H2].
    + right. destruct w as [s st cs], closure as [cp cb cid].
      run_handler. rewrite Hfind. run_handler. rewrite H1.
      split; reflexivity.
    + right. destruct w as [s st cs], closure as [cp cb cid].
      run_handler. rewrite Hfind. run_handler. rewrite H1.
      run_handler. rewrite H2. split; reflexivity.
    + left. exists p. unfold run, calls_since.
      rewrite (onConfirmAction_success closure w p) by assumption.
      cbn [snd app calls pokemons tokenBalance]. rewrite drop_length_app.
      repeat split; reflexivity.
  - right. unfold run. rewrite onConfirmAction_not_found by assumption.
    split; reflexivity.
Qed.

(** Opening the confirmation stores a closure over the collection and the
    balance of that moment, and logs nothing. *)
Lemma handleResellConfirmation_opens (pokemonId pokemonName : string) (w : World)
    (p : Pokemon.t) :
  find_by_id pokemonId (pokemons (app w)) = Some p ->
  handleResellConfirmation pokemonId pokemonName w =
    (Returns tt,
     mkWorld
       (mkAppState (pokemons (app w)) (tokenBalance (app w))
          (isLoading (app w)) (isGeneratingPokemon (app w))
          (isGeneratingEvolutionForPokemonId (app w)) (message (app w))
          (sortOrder (app w)) true "Resell Pokémon"
          (Some (mkModalContent pokemonName
                   (getRarityResellValue (Tier (Pokemon.rarity p)))))
          (Some (mkConfirmClosure (pokemons (app w)) (tokenBalance (app w)) pokemonId))
          (isModalConfirmLoading (app w)) (Some pokemonId))
       (store w) (calls w)).
Proof.
  intros Hfind. destruct w as [s st cs].
  run_handler. rewrite Hfind. reflexivity.
Qed.

(** A closure made by [handleResellConfirmation] finds its creature: the
    lookup it repeats is the one that succeeded when it was made. *)
Lemma handleResellConfirmation_closure_finds (pokemonId pokemonName : string)
    (w : World) (closure : ConfirmClosure) :
  modalOnConfirm (app w) = None ->
  modalOnConfirm (app (run (handleResellConfirmation pokemonId pokemonName) w))
    = Some closure ->
  is_Some (find_by_id (captured_pokemonId closure) (captured_pokemons closure)).
Proof.
  intros Hnone. unfold run.
  destruct (find_by_id pokemonId (pokemons (app w))) as [p|] eqn:Hfind.
  - rewrite (handleResellConfirmation_opens _ _ _ p Hfind).
    cbn [snd app modalOnConfirm]. intros [= <-].
    cbn [captured_pokemonId captured_pokemons]. rewrite Hfind. eauto.
  - destruct w as [s st cs]. run_handler. rewrite Hfind.
    run_handler. rewrite Hnone. discriminate.
Qed.

(** Opening and confirming in one go: the closure runs on the state it
    captured. *)
Lemma resell_and_confirm_success (pokemonId pokemonName : string) (w : World)
    (p : Pokemon.t) :
  find_by_id pokemonId (pokemons (app w)) = Some p ->
  store_rejects env (length (calls w)) = None ->
  store_rejects env (S (length (calls w))) = None ->
  let closure := mkConfirmClosure (pokemons (app w)) (tokenBalance (app w)) pokemonId in
  run (resell_and_confirm env pokemonId pokemonName) w =
    mkWorld
       (mkAppState (replace_by_id (resold p) (pokemons (app w))) (credited closure p)
          (isLoading (app w)) (isGeneratingPokemon (app w))
          (isGeneratingEvolutionForPokemonId (app w))
          (Some (AppMessage.mk AppMessage.success
             (Pokemon.name p ++ " resold successfully! You gained "
              ++ pretty (getRarityResellValue (Tier (Pokemon.rarity p))) ++ " tokens.")))
          (sortOrder (app w)) false "" None None false None)
       (mkStore (<[Pokemon.id p := resold p]> (stored_pokemons (store w)))
          (credited closure p))
       (calls w ++ [updatePokemon_call (resold p);
                    updateTokenBalance_call (credited closure p)]).
Proof.
  intros Hfind H1 H2 closure.
  unfold run, resell_and_confirm, bind at 1.
  rewrite (handleResellConfirmation_opens _ _ _ p Hfind).
  unfold Modal_onConfirm, bind, read_app. cbn [app modalOnConfirm].
  rewrite (onConfirmAction_success closure _ p); [reflexivity | exact Hfind | exact H1 | exact H2].
Qed.
End Resell.

(** What does hold of the resell confirmation.  Opening the confirmation
    for a creature of rarity A and confirming it on the state it was opened
    on, with both writes resolving, raises
    the balance by exactly 10, in
    memory and in the store, and leaves the creature with status resold, in
    memory and in the store (the handlers do not look at the status before,
    so this holds for an owned creature).  However the confirmed action
    settles, it ends with the busy flag cleared and the dialog closed.  The
    collection and the balance in memory change only after the two writes,
    the record first and the balance second, have both resolved, and then
    both change. *)
Theorem resell_confirmation (env : Services) :
  (forall (w : World) (pokemonId pokemonName : string) (p : Pokemon.t),
     find_by_id pokemonId (pokemons (app w)) = Some p ->
     Pokemon.rarity p = PokemonRarity.A ->
     store_rejects env (length (calls w)) = None ->
     store_rejects env (S (length (calls w))) = None ->
     let w' := run (resell_and_confirm env pokemonId pokemonName) w in
     tokenBalance (app w') = tokenBalance (app w) + 10
     /\ stored_balance (store w') = tokenBalance (app w) + 10
     /\ find_by_id pokemonId (pokemons (app w')) = Some (resold p)
     /\ stored_pokemons (store w') !! pokemonId = Some (resold p)
     /\ Pokemon.status (resold p) = PokemonStatus.RESOLD
     /\ calls_since w w' =
          [updatePokemon_call (resold p);
           updateTokenBalance_call (tokenBalance (app w) + 10)]
     /\ isModalConfirmLoading (app w') = false
     /\ isModalOpen (app w') = false)
  /\ (forall (closure : ConfirmClosure) (w : World),
        let w' := run (onConfirmAction env closure) w in
        isModalConfirmLoading (app w') = false /\ isModalOpen (app w') = false)
  /\ (forall (closure : ConfirmClosure) (w : World),
        let w' := run (onConfirmAction env closure) w in
        (exists p,
           find_by_id (captured_pokemonId closure) (captured_pokemons closure) = Some p
           /\ store_rejects env (length (calls w)) = None
           /\ store_rejects env (S (length (calls w))) = None
           /\ calls_since w w' =
                [updatePokemon_call (resold p);
                 updateTokenBalance_call (credited closure p)]
           /\ pokemons (app w') = replace_by_id (resold p) (pokemons (app w))
           /\ tokenBalance (app w') = credited closure p)
        \/ (pokemons (app w') = pokemons (app w)
            /\ tokenBalance (app w') = tokenBalance (app w))).
Proof.
  split; [| split].
  - intros w pokemonId pokemonName p Hfind Hrarity H1 H2 w'. subst w'.
    rewrite (resell_and_confirm_success env pokemonId pokemonName w p) by assumption.
    pose proof (find_by_id_Some _ _ _ Hfind) as Hid.
    unfold calls_since, credited. rewrite Hrarity.
    cbn [app store calls tokenBalance pokemons stored_balance stored_pokemons
         isModalConfirmLoading isModalOpen captured_tokenBalance getRarityResellValue].
    rewrite drop_length_app.
    repeat split; try reflexivity.
    + rewrite <- Hid. change (Pokemon.id p) with (Pokemon.id (resold p)).
      apply (find_by_id_replace_by_id (resold p) _ p).
      change (Pokemon.id (resold p)) with (Pokemon.id p). now rewrite Hid.
    + rewrite Hid. apply lookup_insert_eq.
  - apply onConfirmAction_settles.
  - apply onConfirmAction_commits_together.
Qed.

Lemma resell_confirmation_witness :
  let env := services_up eevee in
  let w := world_of [eevee; pikachu] 25 in
  let w' := run (resell_and_confirm env "p-001" "Pikachu") w in
  tokenBalance (app w') = 25 + 10
  /\ stored_balance (store w') = 25 + 10
  /\ find_by_id "p-001" (pokemons (app w')) = Some (resold pikachu)
  /\ stored_pokemons (store w') !! "p-001" = Some (resold pikachu)
  /\ Pokemon.status (resold pikachu) = PokemonStatus.RESOLD
  /\ calls_since w w' =
       [updatePokemon_call (resold pikachu); updateTokenBalance_call (25 + 10)]
  /\ isModalConfirmLoading (app w') = false
  /\ isModalOpen (app w') = false.
Proof.
  apply (proj1 (resell_confirmation (services_up eevee))
           (world_of [eevee; pikachu] 25) "p-001" "Pikachu" pikachu).
  - reflexivity.
  - reflexivity.
  - reflexivity.
  - reflexivity.
Defined.

(** C10: when the lookup of the confirm action finds no creature of the
    identity in the collection it refers to, the action logs no call,
    leaves the store, the collection, the balance and the notification as
    they were, and still ends with the busy flag cleared and the dialog
    closed: all it does to the state is what [closeModal] does. *)
Theorem resell_confirm_not_found (env : Services) (closure : ConfirmClosure)
    (w : World) :
  find_by_id (captured_pokemonId closure) (captured_pokemons closure) = None ->
  let w' := run (onConfirmAction env closure) w in
  outcome (onConfirmAction env closure) w = Returns tt
  /\ calls w' = calls w
  /\ store w' = store w
  /\ pokemons (app w') = pokemons (app w)
  /\ tokenBalance (app w') = tokenBalance (app w)
  /\ message (app w') = message (app w)
  /\ isModalConfirmLoading (app w') = false
  /\ isModalOpen (app w') = false
  /\ app w' = app (run closeModal w).
Proof.
  intros Hfind w'. subst w'. unfold run, outcome.
  rewrite onConfirmAction_not_found by exact Hfind.
  repeat split.
Qed.

Lemma resell_confirm_not_found_witness :
  let w := world_of [eevee] 25 in
  let w' := run (onConfirmAction (services_up eevee) closure_without_target) w in
  outcome (onConfirmAction (services_up eevee) closure_without_target) w = Returns tt
  /\ calls w' = calls w
  /\ store w' = store w
  /\ pokemons (app w') = pokemons (app w)
  /\ tokenBalance (app w') = tokenBalance (app w)
  /\ message (app w') = message (app w)
  /\ isModalConfirmLoading (app w') = false
  /\ isModalOpen (app w') = false
  /\ app w' = app (run closeModal w).
Proof.
  apply (resell_confirm_not_found (services_up eevee) closure_without_target
           (world_of [eevee] 25)).
  reflexivity.
Defined.

(** C1 on a run: the confirmation for Pikachu is opened, the evolution of
    Pikachu settles while the confirmation is pending, and the resell is
    confirmed.  At the confirmation the collection and the store hold
    Pikachu with its evolution; the record that is written, and put in the
    collection, is the one captured at the opening, without the
    evolution. *)
Theorem resell_confirm_writes_captured_record :
  let env := services_up eevee in
  let w_open :=
    run (handleResellConfirmation "p-001" "Pikachu") (world_of [eevee; pikachu] 25) in
  let w_confirm := run (handleGenerateEvolution env pikachu) w_open in
  let w' := run (Modal_onConfirm env) w_confirm in
  find_by_id "p-001" (pokemons (app w_confirm)) = Some pikachu_evolved
  /\ stored_pokemons (store w_confirm) !! "p-001" = Some pikachu_evolved
  /\ stored_pokemons (store w') !! "p-001" = Some (resold pikachu)
  /\ pokemons (app w') = [eevee; resold pikachu]
  /\ resold pikachu <> resold pikachu_evolved.
Proof.
  repeat split; try reflexivity. discriminate.
Qed.

(** The same for the balance: a generation that runs while the
    confirmation is pending lowers the balance to 15, and the confirmation
    writes 25 + 10, the sum over the balance captured at the opening. *)
Lemma resell_confirm_credits_captured_balance :
  let env := services_up eevee in
  let w_open :=
    run (handleResellConfirmation "p-001" "Pikachu") (world_of [eevee; pikachu] 25) in
  let w_confirm := run (handleGeneratePokemon env) w_open in
  let w' := run (Modal_onConfirm env) w_confirm in
  tokenBalance (app w_confirm) = 15
  /\ stored_balance (store w_confirm) = 15
  /\ stored_balance (store w') = 35
  /\ tokenBalance (app w') = 35.
Proof. repeat split. Qed.

(** C8 on a run: the balance is 25 and Pikachu is owned, of rarity A.
    The confirmation for Pikachu is opened, a generation then lowers the
    balance to 15, and the resell is confirmed with both writes resolving.
    Pikachu becomes resold and the dialog closes with the busy flag
    cleared, but the balance, in memory and in the store, goes from 15 to
    35: the credit is added to the 25 captured at the opening, so the
    confirmation raises the balance by 20, not by 10. *)
Theorem resell_confirm_raises_balance_by_twenty :
  let env := services_up zapdos in
  let w_open :=
    run (handleResellConfirmation "p-001" "Pikachu") (world_of [eevee; pikachu] 25) in
  let w_confirm := run (handleGeneratePokemon env) w_open in
  let w' := run (Modal_onConfirm env) w_confirm in
  find_by_id "p-001" (pokemons (app w_confirm)) = Some pikachu
  /\ Pokemon.status pikachu = PokemonStatus.OWNED
  /\ Pokemon.rarity pikachu = PokemonRarity.A
  /\ tokenBalance (app w_confirm) = 15
  /\ stored_balance (store w_confirm) = 15
  /\ calls_since w_confirm w' =
       [updatePokemon_call (resold pikachu); updateTokenBalance_call 35]
  /\ find_by_id "p-001" (pokemons (app w')) = Some (resold pikachu)
  /\ isModalConfirmLoading (app w') = false
  /\ isModalOpen (app w') = false
  /\ tokenBalance (app w') = tokenBalance (app w_confirm) + 20
  /\ stored_balance (store w') = stored_balance (store w_confirm) + 20
  /\ tokenBalance (app w') <> tokenBalance (app w_confirm) + 10.
Proof.
  repeat split; try reflexivity. vm_compute. discriminate.
Qed.

(** *** The display ordering *)

Section SortCorrect.
Variable compareFn : Pokemon.t -> Pokemon.t -> option Z.
Variable R : Pokemon.t -> Pokemon.t -> Prop.
Variable P : Pokemon.t -> Prop.
Hypothesis not_after : forall a b, P a -> P b -> SortCompare compareFn a b <= 0 -> R a b.
Hypothesis after : forall a b, P a -> P b -> 0 < SortCompare compareFn a b -> R b a.
Hypothesis R_trans : forall a b c, P a -> P b -> P c -> R a b -> R b c -> R a c.



(** The sort is stable: the elements of a class in which no element
    exceeds another keep the order they had. *)
Lemma sort_insert_stable (class : Pokemon.t -> bool) (x : Pokemon.t)
    (l : list Pokemon.t) :
  (forall a b, class a = true -> class b = true -> SortCompare compareFn a b <= 0) ->
  List.filter class (sort_insert compareFn x l) = List.filter class (x :: l).
Proof.
  intros Htie. induction l as [|y rest IH]; cbn [sort_insert]; [reflexivity |].
  destruct (Z.ltb_spec 0 (SortCompare compareFn x y)) as [Hgt | Hle]; [| reflexivity].
  cbn [List.filter] in *. rewrite IH.
  destruct (class x) eqn:Hx, (class y) eqn:Hy; try reflexivity.
  specialize (Htie x y Hx Hy). lia.
Qed.

Lemma sort_elements_stable (class : Pokemon.t -> bool) (l : list Pokemon.t) :
  (forall a b, class a = true -> class b = true -> SortCompare compareFn a b <= 0) ->
  List.filter class (sort_elements compareFn l) = List.filter class l.
Proof.
  intros Htie. induction l as [|x rest IH]; cbn [sort_elements]; [reflexivity |].
  rewrite sort_insert_stable by exact Htie. cbn [List.filter]. now rewrite IH.
Qed.


End SortCorrect.


(** The memoised computation allocates one array, the copy, and sorts it
    with the comparison function of the mode. *)
Lemma sortedPokemons_copy (env : Services) (pokemons : nat) (sortOrder : string)
    (heap : list (list Pokemon.t)) (collection : list Pokemon.t) :
  heap !! pokemons = Some collection ->
  sortedPokemons env pokemons sortOrder heap =
    Some (length heap,
          (heap ++ [sort_elements (compareFn_of env sortOrder) collection])%list).
Proof.
  intros Hlookup. unfold sortedPokemons, Array_spread. rewrite Hlookup.
  assert (Hsort : forall compareFn,
    Array_sort compareFn (length heap) (heap ++ [collection]) =
      Some (length heap, (heap ++ [sort_elements compareFn collection])%list)).
  { intros compareFn. unfold Array_sort.
    rewrite list_lookup_middle by reflexivity.
    replace (length heap) with (length heap + 0)%nat at 2 by lia.
    rewrite insert_app_r. reflexivity. }
  unfold compareFn_of.
  repeat match goal with
         | |- context [String.eqb sortOrder ?mode] =>
             destruct (String.eqb sortOrder mode)
         end; apply Hsort.
Qed.



(** The comparison of the examples is a consistent one, and the dates of
    the examples are valid: the premises of the name and date modes can be
    met. *)
Lemma compare_code_units_consistent : consistent_comparison compare_code_units.
Proof.
  split.
  - intros a. induction a as [|c a IH]; intros [|d b]; cbn [compare_code_units];
      try lia.
    destruct (Z.eqb_spec (Z.of_N (N_of_ascii c) - Z.of_N (N_of_ascii d)) 0) as [E|E];
      destruct (Z.eqb_spec (Z.of_N (N_of_ascii d) - Z.of_N (N_of_ascii c)) 0) as [F|F];
      try lia.
    apply IH.
  - intros a. induction a as [|x a IH]; intros [|y b] [|z c]; cbn [compare_code_units];
      try lia.
    destruct (Z.eqb_spec (Z.of_N (N_of_ascii x) - Z.of_N (N_of_ascii y)) 0) as [E|E];
      destruct (Z.eqb_spec (Z.of_N (N_of_ascii y) - Z.of_N (N_of_ascii z)) 0) as [F|F];
      destruct (Z.eqb_spec (Z.of_N (N_of_ascii x) - Z.of_N (N_of_ascii z)) 0) as [G|G];
      try lia.
    apply IH.
Qed.

Lemma sample_dates_valid :
  valid_dates (services_up eevee) [eevee; zapdos; abra].
Proof. repeat constructor; eexists; reflexivity. Qed.

(** The orderings of a collection with the rarities C, S+, F. *)
Example display_ordering_of_three :
  let env := services_up eevee in
  let display mode := sortedPokemons env 0 mode [[eevee; zapdos; abra]] in
  display "rarity-desc" = Some (1%nat, [[eevee; zapdos; abra]; [zapdos; eevee; abra]])
  /\ display "rarity-asc" = Some (1%nat, [[eevee; zapdos; abra]; [abra; eevee; zapdos]])
  /\ display "name-asc" = Some (1%nat, [[eevee; zapdos; abra]; [abra; eevee; zapdos]])
  /\ display "name-desc" = Some (1%nat, [[eevee; zapdos; abra]; [zapdos; eevee; abra]])
  /\ display "date-asc" = Some (1%nat, [[eevee; zapdos; abra]; [eevee; zapdos; abra]])
  /\ display "date-desc" = Some (1%nat, [[eevee; zapdos; abra]; [abra; zapdos; eevee]])
  /\ display "newest" = display "date-desc".
Proof. repeat split. Qed.

(** ** Further properties of the component *)

(** One step of symbolic execution over the whole component. *)
Ltac run_component :=
  cbv beta iota zeta delta
    [fetchAppData indexedDbService_getPokemons indexedDbService_getTokenBalance
     generate_then_resell] in *;
  run_handler.

(** A case split on the next answer of a collaborator, or on the funds. *)
Ltac oracle_case :=
  match goal with
  | |- context [match store_rejects ?env ?n with _ => _ end] =>
      destruct (store_rejects env n) eqn:?
  | |- context [match generatePokemon_result ?env ?n with _ => _ end] =>
      destruct (generatePokemon_result env n) eqn:?
  | |- context [match generateContent_result ?env ?n with _ => _ end] =>
      destruct (generateContent_result env n) eqn:?
  | |- context [match JSON_parse ?env ?text with _ => _ end] =>
      destruct (JSON_parse env text) eqn:?
  | |- context [match generateImages_result ?env ?n with _ => _ end] =>
      destruct (generateImages_result env n) as [[|? ?]|?] eqn:?
  | |- context [match find_by_id ?i ?l with _ => _ end] =>
      destruct (find_by_id i l) eqn:?
  | |- context [match getPokemons_result ?reads with _ => _ end] =>
      destruct (getPokemons_result reads) eqn:?
  | |- context [match getTokenBalance_result ?reads with _ => _ end] =>
      destruct (getTokenBalance_result reads) eqn:?
  | |- context [(?b <? GENERATION_COST)%Z] =>
      destruct (Z.ltb_spec b GENERATION_COST)
  end.

(** Every run of a handler, one goal per way the collaborators answer. *)
Ltac all_cases := repeat (run_component; oracle_case); run_component.

Ltac open_world w :=
  destruct w as [[? ? ? ? ? ? ? ? ? ? ? ? ?] [? ?] ?].

Ltac settle_calls :=
  rewrite <- ?app_assoc; cbn [List.app app];
  rewrite ?drop_length_app, ?drop_all;
  cbn [store_writes generation_calls List.filter is_store_write
       is_generation_call negb length].

(** *** The economy rules and the badge *)

(** X1: a higher tier resells for strictly more. *)
Theorem resale_value_increases_with_rank (r1 r2 : PokemonRarity.t) :
  rarityOrderMap r1 < rarityOrderMap r2 ->
  getRarityResellValue (Tier r1) < getRarityResellValue (Tier r2).
Proof. destruct r1, r2; cbn; lia. Qed.

Lemma resale_value_increases_with_rank_witness :
  getRarityResellValue (Tier PokemonRarity.C) < getRarityResellValue (Tier PokemonRarity.A).
Proof.
  apply (resale_value_increases_with_rank PokemonRarity.C PokemonRarity.A).
  reflexivity.
Defined.

(** X2: a resale is worth between 1 and 25 tokens whatever the rarity
    value, and it covers the cost of a generation exactly for the tiers
    of rank 5 and above (A, S, S+). *)
Theorem resale_value_and_cost :
  (forall v : RarityValue, 1 <= getRarityResellValue v <= 25)
  /\ (forall r : PokemonRarity.t,
        GENERATION_COST <= getRarityResellValue (Tier r) <-> 5 <= rarityOrderMap r).
Proof.
  split.
  - intros [[]|raw]; cbn; lia.
  - intros []; cbn; unfold GENERATION_COST; lia.
Qed.

(** X3: two rarity values get the same badge classes only if they are
    the same tier or are both no tier: the eight tiers and the default are
    told apart by the badge. *)
Theorem rarity_colors_distinct (v1 v2 : RarityValue) :
  getRarityColor v1 = getRarityColor v2 ->
  match v1, v2 with
  | Tier r1, Tier r2 => r1 = r2
  | Unmapped _, Unmapped _ => True
  | _, _ => False
  end.
Proof.
  destruct v1 as [[]|raw1], v2 as [[]|raw2]; cbn; intros H;
    first [reflexivity | exact I | discriminate H].
Qed.

Lemma rarity_colors_distinct_witness :
  PokemonRarity.A = PokemonRarity.A.
Proof.
  apply (rarity_colors_distinct (Tier PokemonRarity.A) (Tier PokemonRarity.A)).
  reflexivity.
Defined.

(** *** Loading the data *)

(** X4: when both reads resolve, [fetchAppData] puts the fetched
    collection and the amount of the fetched balance in the state, clears
    the notification and ends the loading; every other cell, the store and
    the log are as before.  On the first render this gives the page of a
    loaded collection: dialog closed, newest first. *)
Theorem fetchAppData_loads (reads : Reads) (w : World)
    (fetched : list Pokemon.t) (balance : TokenBalance.t) :
  getPokemons_result reads = Returns fetched ->
  getTokenBalance_result reads = Returns balance ->
  let w' := run (fetchAppData reads) w in
  outcome (fetchAppData reads) w = Returns tt
  /\ app w' =
       with_isLoading false
         (with_message None
            (with_tokenBalance (TokenBalance.amount balance)
               (with_pokemons fetched (app w))))
  /\ store w' = store w
  /\ calls w' = calls w
  /\ (app w = initialAppState ->
      app w' = app_of fetched (TokenBalance.amount balance)).
Proof.
  intros Hcollection Hbalance. open_world w. run_component.
  rewrite Hcollection. run_component. rewrite Hbalance. run_component.
  repeat split. intros [= -> -> -> -> -> -> -> -> -> -> -> -> ->]. reflexivity.
Qed.

Lemma fetchAppData_loads_witness :
  let w' := run (fetchAppData reads_up) world_at_mount in
  outcome (fetchAppData reads_up) world_at_mount = Returns tt
  /\ app w' =
       with_isLoading false
         (with_message None
            (with_tokenBalance 25 (with_pokemons [eevee; pikachu] (app world_at_mount))))
  /\ store w' = store world_at_mount
  /\ calls w' = calls world_at_mount
  /\ (app world_at_mount = initialAppState -> app w' = app_of [eevee; pikachu] 25).
Proof.
  apply (fetchAppData_loads reads_up world_at_mount [eevee; pikachu] (TokenBalance.mk 25)).
  - reflexivity.
  - reflexivity.
Defined.

(** X5: when the collection is read and the read of the balance rejects,
    the load is partial: the state holds the fetched collection next to
    the balance it had, with the error notification, and the loading is
    over. *)
Theorem fetchAppData_partial_load (reads : Reads) (w : World)
    (fetched : list Pokemon.t) (e : Thrown) :
  getPokemons_result reads = Returns fetched ->
  getTokenBalance_result reads = Throws e ->
  let w' := run (fetchAppData reads) w in
  outcome (fetchAppData reads) w = Returns tt
  /\ pokemons (app w') = fetched
  /\ tokenBalance (app w') = tokenBalance (app w)
  /\ message (app w') =
       Some (AppMessage.mk AppMessage.error "Failed to load app data. Please try again.")
  /\ isLoading (app w') = false.
Proof.
  intros Hcollection Hbalance. open_world w. run_component.
  rewrite Hcollection. run_component. rewrite Hbalance. run_component.
  repeat split.
Qed.

Lemma fetchAppData_partial_load_witness :
  let w' := run (fetchAppData reads_balance_fails) world_at_mount in
  outcome (fetchAppData reads_balance_fails) world_at_mount = Returns tt
  /\ pokemons (app w') = [eevee; pikachu]
  /\ tokenBalance (app w') = tokenBalance (app world_at_mount)
  /\ message (app w') =
       Some (AppMessage.mk AppMessage.error "Failed to load app data. Please try again.")
  /\ isLoading (app w') = false.
Proof.
  apply (fetchAppData_partial_load reads_balance_fails world_at_mount [eevee; pikachu]
           quota_exceeded).
  - reflexivity.
  - reflexivity.
Defined.

(** X6: however the reads settle, [fetchAppData] does not reject and ends
    the loading; it either clears the notification, and then both the
    collection and the balance are the fetched ones, or shows the load
    error, and then the balance is the one it was. *)
Theorem fetchAppData_settles (reads : Reads) (w : World) :
  let w' := run (fetchAppData reads) w in
  outcome (fetchAppData reads) w = Returns tt
  /\ isLoading (app w') = false
  /\ ((message (app w') = None
       /\ getPokemons_result reads = Returns (pokemons (app w'))
       /\ getTokenBalance_result reads = Returns (TokenBalance.mk (tokenBalance (app w'))))
      \/ (message (app w') =
            Some (AppMessage.mk AppMessage.error "Failed to load app data. Please try again.")
          /\ tokenBalance (app w') = tokenBalance (app w))).
Proof.
  open_world w. all_cases.
  all: split; [reflexivity |]; split; [reflexivity |].
  all: first
    [ right; split; reflexivity
    | left; split; [reflexivity |]; split; [reflexivity |];
      match goal with
      | |- Returns ?b = _ => destruct b; reflexivity
      end ].
Qed.

(** *** More on the generation workflow *)

(** X7: however the collaborators answer, a generation leaves the balance
    in memory as it was or lowers it by exactly 10 (and then it was at
    least 10, so a balance that is not negative stays so); it leaves the
    collection as it was or puts one record in front of it; it writes the
    store at most three times and calls the generation client at most
    once; and it ends with the generating flag cleared, unless it stopped
    at the funds check, which leaves the flag alone. *)
Theorem generation_keeps_state_sound (env : Services) (w : World) :
  let w' := run (handleGeneratePokemon env) w in
  (tokenBalance (app w') = tokenBalance (app w)
   \/ (10 <= tokenBalance (app w)
       /\ tokenBalance (app w') = tokenBalance (app w) - 10))
  /\ (pokemons (app w') = pokemons (app w)
      \/ exists p, pokemons (app w') = p :: pokemons (app w))
  /\ (length (store_writes (calls_since w w')) <= 3)%nat
  /\ (length (generation_calls (calls_since w w')) <= 1)%nat
  /\ (isGeneratingPokemon (app w') = false
      \/ (tokenBalance (app w) < 10
          /\ isGeneratingPokemon (app w') = isGeneratingPokemon (app w))).
Proof.
  open_world w. all_cases.
  all: settle_calls.
  all: unfold GENERATION_COST in *.
  all: repeat split; eauto; try lia.
Qed.

(** X8: a generation either returns, and then a notification is shown, or
    rejects; it rejects only with the error of the refund write, the last
    call it made, and then the notification is the one that was there, the
    balance in memory is restored and the collection is unchanged. *)
Theorem generation_settles (env : Services) (w : World) :
  let w' := run (handleGeneratePokemon env) w in
  (outcome (handleGeneratePokemon env) w = Returns tt
   /\ exists kind text, message (app w') = Some (AppMessage.mk kind text))
  \/ (exists e before,
        outcome (handleGeneratePokemon env) w = Throws e
        /\ calls w' = (before ++ [updateTokenBalance_call (tokenBalance (app w))])%list
        /\ store_rejects env (length before) = Some e
        /\ message (app w') = message (app w)
        /\ tokenBalance (app w') = tokenBalance (app w)
        /\ pokemons (app w') = pokemons (app w)).
Proof.
  open_world w. all_cases.
  all: first
    [ left; split; [reflexivity | eexists _, _; reflexivity]
    | right; eexists _, _; split; [reflexivity |]; split; [reflexivity |];
      rewrite ?length_snoc; repeat split; assumption ].
Qed.

(** X9: when the write of the lowered balance rejects, the generation
    client is not called: the only calls are that write and the write of
    the refund; the balance in memory is restored, the collection and the
    stored creatures are unchanged, and the stored balance is the one it
    was or the balance of the state. *)
Theorem generation_debit_rejected (env : Services) (w : World) (e : Thrown) :
  10 <= tokenBalance (app w) ->
  store_rejects env (length (calls w)) = Some e ->
  let w' := run (handleGeneratePokemon env) w in
  calls_since w w' =
    [updateTokenBalance_call (tokenBalance (app w) - 10);
     updateTokenBalance_call (tokenBalance (app w))]
  /\ generation_calls (calls_since w w') = []
  /\ tokenBalance (app w') = tokenBalance (app w)
  /\ pokemons (app w') = pokemons (app w)
  /\ stored_pokemons (store w') = stored_pokemons (store w)
  /\ (stored_balance (store w') = stored_balance (store w)
      \/ stored_balance (store w') = tokenBalance (app w)).
Proof.
  intros Hfunds Hdebit. open_world w. run_component.
  destruct (Z.ltb_spec tokenBalance0 GENERATION_COST);
    [unfold GENERATION_COST in *; lia |].
  run_component. rewrite Hdebit. all_cases.
  all: settle_calls; repeat split; auto.
Qed.

Lemma generation_debit_rejected_witness :
  let env := services_store_down eevee in
  let w := world_of [pikachu] 25 in
  let w' := run (handleGeneratePokemon env) w in
  calls_since w w' = [updateTokenBalance_call (25 - 10); updateTokenBalance_call 25]
  /\ generation_calls (calls_since w w') = []
  /\ tokenBalance (app w') = 25
  /\ pokemons (app w') = [pikachu]
  /\ stored_pokemons (store w') = stored_pokemons (store w)
  /\ (stored_balance (store w') = stored_balance (store w)
      \/ stored_balance (store w') = 25).
Proof.
  apply (generation_debit_rejected (services_store_down eevee) (world_of [pikachu] 25)
           quota_exceeded).
  - vm_compute. discriminate.
  - reflexivity.
Defined.

(** *** More on the evolution workflow *)

(** The records of a collection after a replacement by identity. *)
Lemma elem_of_replace_by_id (updatedPokemon q : Pokemon.t)
    (collection : list Pokemon.t) :
  q ∈ replace_by_id updatedPokemon collection ->
  q = updatedPokemon
  \/ (q ∈ collection /\ Pokemon.id q <> Pokemon.id updatedPokemon).
Proof.
  unfold replace_by_id. intros Hq.
  apply list_elem_of_fmap in Hq as (p & -> & Hp).
  destruct (String.eqb (Pokemon.id p) (Pokemon.id updatedPokemon)) eqn:Hid.
  - now left.
  - right. split; [exact Hp |]. now apply String.eqb_neq.
Qed.

(** Replacing a record by identity in the collection and in the stored
    creatures keeps the one the mirror of the other. *)
Lemma mirror_after_replace (updatedPokemon : Pokemon.t)
    (collection : list Pokemon.t) (stored : gmap string Pokemon.t) :
  (forall p, p ∈ collection -> stored !! Pokemon.id p = Some p) ->
  forall q, q ∈ replace_by_id updatedPokemon collection ->
    <[Pokemon.id updatedPokemon := updatedPokemon]> stored !! Pokemon.id q = Some q.
Proof.
  intros Hmirror q Hq.
  apply elem_of_replace_by_id in Hq as [-> | [Hq Hid]].
  - apply lookup_insert_eq.
  - rewrite lookup_insert_ne by congruence. now apply Hmirror.
Qed.

(** X10: however the collaborators answer, an evolution does not reject;
    it ends with the in-flight mark cleared; it leaves the balance alone,
    in memory and in the store; it writes the store at most once and calls
    the generation client at most twice. *)
Theorem evolution_settles (env : Services) (w : World) (pokemon : Pokemon.t) :
  let w' := run (handleGenerateEvolution env pokemon) w in
  outcome (handleGenerateEvolution env pokemon) w = Returns tt
  /\ isGeneratingEvolutionForPokemonId (app w') = None
  /\ tokenBalance (app w') = tokenBalance (app w)
  /\ stored_balance (store w') = stored_balance (store w)
  /\ (length (store_writes (calls_since w w')) <= 1)%nat
  /\ (length (generation_calls (calls_since w w')) <= 2)%nat.
Proof.
  open_world w. all_cases.
  all: settle_calls; repeat split; lia.
Qed.

(** X11: the notification of an evolution tells what happened.  Either it
    is a success, and then the record with a new evolution has replaced,
    by identity, the records of the collection and the stored one; or it
    is an error, and then the collection and the store are exactly as they
    were: no evolution is attached in memory that is not stored, and none
    is stored that is not in memory. *)
Theorem evolution_notification_is_truthful (env : Services) (w : World)
    (pokemon : Pokemon.t) :
  let w' := run (handleGenerateEvolution env pokemon) w in
  (exists text newEvolution,
     message (app w') = Some (AppMessage.mk AppMessage.success text)
     /\ pokemons (app w') =
          replace_by_id (Pokemon.with_evolution pokemon newEvolution) (pokemons (app w))
     /\ stored_pokemons (store w') =
          <[Pokemon.id pokemon := Pokemon.with_evolution pokemon newEvolution]>
            (stored_pokemons (store w)))
  \/ (exists text,
        message (app w') = Some (AppMessage.mk AppMessage.error text)
        /\ pokemons (app w') = pokemons (app w)
        /\ store w' = store w).
Proof.
  open_world w. all_cases.
  all: first
    [ right; eexists; repeat split; reflexivity
    | left; eexists _, _; repeat split; reflexivity ].
Qed.

(** X12: an evolution keeps the state the mirror of the store, however
    the collaborators answer. *)
Theorem evolution_keeps_mirror (env : Services) (w : World) (pokemon : Pokemon.t) :
  mirrors w ->
  mirrors (run (handleGenerateEvolution env pokemon) w).
Proof.
  unfold mirrors. intros [Hbalance Hrecords]. open_world w. all_cases.
  all: split; [exact Hbalance |].
  all: first
    [ exact Hrecords
    | intros q Hq; exact (mirror_after_replace _ _ _ Hrecords q Hq) ].
Qed.

Lemma world_of_two_mirrors : mirrors (world_of [eevee; pikachu] 25).
Proof.
  split; [reflexivity |].
  intros p Hp. cbn [world_of app app_of pokemons] in Hp.
  repeat (apply elem_of_cons in Hp as [-> | Hp]); [reflexivity | reflexivity |].
  now apply elem_of_nil in Hp.
Qed.

Lemma evolution_keeps_mirror_witness :
  mirrors (run (handleGenerateEvolution (services_up eevee) pikachu)
             (world_of [eevee; pikachu] 25)).
Proof.
  apply (evolution_keeps_mirror (services_up eevee) (world_of [eevee; pikachu] 25) pikachu).
  exact world_of_two_mirrors.
Defined.

(** X13: when the image call resolves with no image, reading the first
    image throws: the workflow stops after the two generation calls,
    writes nothing, leaves the collection and the store as they were and
    shows an error notification. *)
Theorem evolution_without_image (env : Services) (w : World) (pokemon : Pokemon.t)
    (raw : string) (data : EvolutionTextData) :
  generateContent_result env (length (calls w)) = Returns raw ->
  JSON_parse env (String_trim env raw) = Returns data ->
  generateImages_result env (S (length (calls w))) = Returns [] ->
  let w' := run (handleGenerateEvolution env pokemon) w in
  calls_since w w' =
    [generateContent_call (textPrompt pokemon);
     generateImages_call (imagePrompt pokemon (text_evolutionName data))]
  /\ store w' = store w
  /\ pokemons (app w') = pokemons (app w)
  /\ exists text, message (app w') = Some (AppMessage.mk AppMessage.error text).
Proof.
  intros Htext Hparse Himages. open_world w. run_component.
  rewrite Htext, Hparse. run_component. rewrite Himages. run_component.
  settle_calls. repeat split. eexists. reflexivity.
Qed.

Lemma evolution_without_image_witness :
  let w := world_of [eevee; pikachu] 25 in
  let w' := run (handleGenerateEvolution services_no_image pikachu) w in
  calls_since w w' =
    [generateContent_call (textPrompt pikachu);
     generateImages_call (imagePrompt pikachu "Raichu")]
  /\ store w' = store w
  /\ pokemons (app w') = pokemons (app w)
  /\ exists text, message (app w') = Some (AppMessage.mk AppMessage.error text).
Proof.
  apply (evolution_without_image services_no_image (world_of [eevee; pikachu] 25) pikachu
           evolution_json (mkEvolutionTextData "Raichu" "A larger tail." "ATK 90")).
  - reflexivity.
  - reflexivity.
  - reflexivity.
Defined.

(** X14: when the update of the record rejects, the evolution is attached
    nowhere: the write was attempted after the two generation calls, the
    collection and the store are as they were, and the error notification
    carries the text of the rejection. *)
Theorem evolution_write_rejected (env : Services) (w : World) (pokemon : Pokemon.t)
    (raw : string) (data : EvolutionTextData) (image : string) (others : list string)
    (e : Thrown) :
  generateContent_result env (length (calls w)) = Returns raw ->
  JSON_parse env (String_trim env raw) = Returns data ->
  generateImages_result env (S (length (calls w))) = Returns (image :: others) ->
  store_rejects env (S (S (length (calls w)))) = Some e ->
  let w' := run (handleGenerateEvolution env pokemon) w in
  calls_since w w' =
    [generateContent_call (textPrompt pokemon);
     generateImages_call (imagePrompt pokemon (text_evolutionName data));
     updatePokemon_call
       (evolved pokemon data image
          (Date_now_toISOString env (S (S (length (calls w))))))]
  /\ store w' = store w
  /\ pokemons (app w') = pokemons (app w)
  /\ message (app w') =
       Some (AppMessage.mk AppMessage.error (evolution_failure_text pokemon e))
  /\ includes (evolution_failure_text pokemon e) (error_text e).
Proof.
  intros Htext Hparse Himages Hwrite. open_world w. run_component.
  rewrite Htext, Hparse. run_component. rewrite Himages. run_component.
  rewrite Hwrite. run_component. settle_calls. repeat split.
  unfold evolution_failure_text.
  exists ("Failed to generate evolution for " ++ Pokemon.name pokemon ++ ": "),
         ". Please check the console for more details.".
  rewrite !append_assoc. reflexivity.
Qed.

Lemma evolution_write_rejected_witness :
  let env := services_store_down eevee in
  let w := world_of [eevee; pikachu] 25 in
  let w' := run (handleGenerateEvolution env pikachu) w in
  calls_since w w' =
    [generateContent_call (textPrompt pikachu);
     generateImages_call (imagePrompt pikachu "Raichu");
     updatePokemon_call pikachu_evolved]
  /\ store w' = store w
  /\ pokemons (app w') = pokemons (app w)
  /\ message (app w') =
       Some (AppMessage.mk AppMessage.error (evolution_failure_text pikachu quota_exceeded))
  /\ includes (evolution_failure_text pikachu quota_exceeded) (error_text quota_exceeded).
Proof.
  apply (evolution_write_rejected (services_store_down eevee)
           (world_of [eevee; pikachu] 25) pikachu evolution_json
           (mkEvolutionTextData "Raichu" "A larger tail." "ATK 90") "cmFpY2h1" []
           quota_exceeded).
  - reflexivity.
  - reflexivity.
  - reflexivity.
  - reflexivity.
Defined.

(** *** The mirror of the store *)

(** X15: when the store accepts every write and the client hands out an
    identity the collection does not have, a generation keeps the state
    the mirror of the store, whether the client succeeds or fails. *)
Theorem generation_keeps_mirror (env : Services) (w : World) :
  mirrors w ->
  store_accepts env ->
  (forall p, generatePokemon_result env (S (length (calls w))) = Returns p ->
     forall q, q ∈ pokemons (app w) -> Pokemon.id q <> Pokemon.id p) ->
  mirrors (run (handleGeneratePokemon env) w).
Proof.
  unfold mirrors, store_accepts. intros [Hbalance Hrecords] Haccept Hfresh.
  open_world w. all_cases.
  all: try match goal with
           | H : store_rejects _ _ = Some _ |- _ => now rewrite Haccept in H
           end.
  - split; [exact Hbalance | exact Hrecords].
  - split; [reflexivity |]. intros q Hq.
    apply elem_of_cons in Hq as [-> | Hq]; [apply lookup_insert_eq |].
    rewrite lookup_insert_ne; [now apply Hrecords |].
    intros Heq. eapply Hfresh; [first [reflexivity | eassumption] | exact Hq | now symmetry].
  - split; [reflexivity | exact Hrecords].
Qed.

Lemma services_up_accepts (generated : Pokemon.t) : store_accepts (services_up generated).
Proof. intros n. reflexivity. Qed.

Lemma generation_keeps_mirror_witness :
  mirrors (run (handleGeneratePokemon (services_up zapdos)) (world_of [eevee; pikachu] 25)).
Proof.
  apply (generation_keeps_mirror (services_up zapdos) (world_of [eevee; pikachu] 25)).
  - exact world_of_two_mirrors.
  - exact (services_up_accepts zapdos).
  - intros p [= <-] q Hq. cbn [world_of app app_of pokemons] in Hq.
    repeat (apply elem_of_cons in Hq as [-> | Hq]); [discriminate | discriminate |].
    now apply elem_of_nil in Hq.
Defined.

(** X16: when the store accepts every write, a confirmed resell keeps the
    state the mirror of the store, for every closure: also for one that
    captured a collection and a balance that are no longer current. *)
Theorem resell_keeps_mirror (env : Services) (closure : ConfirmClosure) (w : World) :
  mirrors w ->
  store_accepts env ->
  mirrors (run (onConfirmAction env closure) w).
Proof.
  unfold mirrors, store_accepts. intros [Hbalance Hrecords] Haccept.
  open_world w. destruct closure as [cp cb cid]. all_cases.
  all: try match goal with
           | H : store_rejects _ _ = Some _ |- _ => now rewrite Haccept in H
           end.
  - split; [reflexivity |]. intros q Hq.
    match goal with
    | H : find_by_id _ _ = Some ?p |- _ =>
        exact (mirror_after_replace (resold p) _ _ Hrecords q Hq)
    end.
  - split; [exact Hbalance | exact Hrecords].
Qed.

Lemma resell_keeps_mirror_witness :
  mirrors (run (onConfirmAction (services_up eevee)
                  (mkConfirmClosure [eevee; pikachu] 25 "p-001"))
             (world_of [eevee; pikachu] 25)).
Proof.
  apply (resell_keeps_mirror (services_up eevee)
           (mkConfirmClosure [eevee; pikachu] 25 "p-001") (world_of [eevee; pikachu] 25)).
  - exact world_of_two_mirrors.
  - exact (services_up_accepts eevee).
Defined.

(** *** More on the resell workflow *)

Lemma find_by_id_elem_of (pokemonId : string) (collection : list Pokemon.t)
    (p : Pokemon.t) :
  find_by_id pokemonId collection = Some p -> p ∈ collection.
Proof.
  unfold find_by_id. intros H. apply List.find_some in H as [H _].
  now apply list_elem_of_In.
Qed.

(** X17: when the write of the resold record resolves and the write of
    the balance rejects, the owned creature is sold without being paid:
    the store holds it as resold and keeps the old balance, the state
    keeps it as it was with the old balance, the error is notified and the
    dialog is closed; the state is no longer the mirror of the store. *)
Theorem resell_sold_but_not_credited (env : Services) (w : World)
    (pokemonId pokemonName : string) (p : Pokemon.t) (e : Thrown) :
  find_by_id pokemonId (pokemons (app w)) = Some p ->
  Pokemon.status p = PokemonStatus.OWNED ->
  store_rejects env (length (calls w)) = None ->
  store_rejects env (S (length (calls w))) = Some e ->
  let w' := run (resell_and_confirm env pokemonId pokemonName) w in
  stored_pokemons (store w') !! pokemonId = Some (resold p)
  /\ stored_balance (store w') = stored_balance (store w)
  /\ pokemons (app w') = pokemons (app w)
  /\ tokenBalance (app w') = tokenBalance (app w)
  /\ message (app w') =
       Some (AppMessage.mk AppMessage.error
               ("Failed to resell Pokémon: " ++ error_text e))
  /\ isModalOpen (app w') = false
  /\ ~ mirrors w'.
Proof.
  intros Hfind Howned H1 H2.
  pose proof (find_by_id_Some _ _ _ Hfind) as Hid.
  pose proof (find_by_id_elem_of _ _ _ Hfind) as Hin.
  open_world w. run_component. rewrite Hfind. run_component. rewrite Hfind.
  run_component. rewrite H1. run_component. rewrite H2. run_component.
  assert (Hstored : <[Pokemon.id p := resold p]> stored_pokemons0 !! pokemonId
                    = Some (resold p)).
  { rewrite Hid. apply lookup_insert_eq. }
  repeat split; try assumption.
  intros [_ Hrecords]. specialize (Hrecords p Hin). cbn [store stored_pokemons] in Hrecords.
  rewrite lookup_insert_eq in Hrecords. injection Hrecords as Hrecords.
  apply (f_equal Pokemon.status) in Hrecords. cbn in Hrecords. congruence.
Qed.

Lemma resell_sold_but_not_credited_witness :
  let env := services_second_write_fails in
  let w := world_of [eevee; pikachu] 25 in
  let w' := run (resell_and_confirm env "p-001" "Pikachu") w in
  stored_pokemons (store w') !! "p-001" = Some (resold pikachu)
  /\ stored_balance (store w') = stored_balance (store w)
  /\ pokemons (app w') = pokemons (app w)
  /\ tokenBalance (app w') = tokenBalance (app w)
  /\ message (app w') =
       Some (AppMessage.mk AppMessage.error
               ("Failed to resell Pokémon: " ++ error_text quota_exceeded))
  /\ isModalOpen (app w') = false
  /\ ~ mirrors w'.
Proof.
  apply (resell_sold_but_not_credited services_second_write_fails
           (world_of [eevee; pikachu] 25) "p-001" "Pikachu" pikachu quota_exceeded).
  - reflexivity.
  - reflexivity.
  - reflexivity.
  - reflexivity.
Defined.

(** X26: however the writes go, a confirmed action does not reject and
    never calls the generation client, and its notification tells what
    happened: a success after exactly the two writes, both resolved; an
    error with the collection and the balance in memory as they were; or
    no new notification and no call at all, when the lookup found
    nothing. *)
Theorem resell_confirm_settles (env : Services) (closure : ConfirmClosure)
    (w : World) :
  let w' := run (onConfirmAction env closure) w in
  outcome (onConfirmAction env closure) w = Returns tt
  /\ generation_calls (calls_since w w') = []
  /\ ((exists text first second,
         message (app w') = Some (AppMessage.mk AppMessage.success text)
         /\ calls_since w w' = [updatePokemon_call first; updateTokenBalance_call second]
         /\ stored_pokemons (store w') !! Pokemon.id first = Some first
         /\ stored_balance (store w') = second
         /\ tokenBalance (app w') = second)
      \/ (exists text,
            message (app w') = Some (AppMessage.mk AppMessage.error text)
            /\ pokemons (app w') = pokemons (app w)
            /\ tokenBalance (app w') = tokenBalance (app w))
      \/ (message (app w') = message (app w) /\ calls w' = calls w
          /\ store w' = store w)).
Proof.
  open_world w. destruct closure as [cp cb cid]. all_cases.
  all: settle_calls; split; [reflexivity |]; split; [reflexivity |].
  all: first
    [ right; right; repeat split; reflexivity
    | right; left; eexists; repeat split; reflexivity
    | left; eexists _, _, _; repeat split; first [reflexivity | apply lookup_insert_eq] ].
Qed.

(** X18: asking to resell a creature the collection does not hold opens
    no dialog: the request only shows the error notification; every other
    cell of the state, the store and the log are as they were. *)
Theorem resell_request_not_found (pokemonId pokemonName : string) (w : World) :
  find_by_id pokemonId (pokemons (app w)) = None ->
  let w' := run (handleResellConfirmation pokemonId pokemonName) w in
  app w' =
    with_message
      (Some (AppMessage.mk AppMessage.error "Could not find the Pokémon to resell."))
      (app w)
  /\ store w' = store w
  /\ calls w' = calls w.
Proof.
  intros Hfind. open_world w. run_component. rewrite Hfind. repeat split.
Qed.

Lemma resell_request_not_found_witness :
  let w := world_of [eevee] 25 in
  let w' := run (handleResellConfirmation "p-001" "Pikachu") w in
  app w' =
    with_message
      (Some (AppMessage.mk AppMessage.error "Could not find the Pokémon to resell."))
      (app w)
  /\ store w' = store w
  /\ calls w' = calls w.
Proof.
  apply (resell_request_not_found "p-001" "Pikachu" (world_of [eevee] 25)).
  reflexivity.
Defined.

(** X19: a resell confirmed on the state it was opened on pays what was
    announced: the value on the resell button of the card, the value in
    the dialog, the credit to the balance, in memory and in the store, and
    the value in the success notification are the same number. *)
Theorem resell_pays_what_was_announced (env : Services) (w : World)
    (pokemonId pokemonName : string) (p : Pokemon.t) :
  find_by_id pokemonId (pokemons (app w)) = Some p ->
  store_rejects env (length (calls w)) = None ->
  store_rejects env (S (length (calls w))) = None ->
  let w_open := run (handleResellConfirmation pokemonId pokemonName) w in
  let w' := run (Modal_onConfirm env) w_open in
  modalContent (app w_open) = Some (mkModalContent pokemonName (card_resellValue p))
  /\ tokenBalance (app w') = tokenBalance (app w) + card_resellValue p
  /\ stored_balance (store w') = tokenBalance (app w) + card_resellValue p
  /\ message (app w') =
       Some (AppMessage.mk AppMessage.success
               (Pokemon.name p ++ " resold successfully! You gained "
                ++ pretty (card_resellValue p) ++ " tokens.")).
Proof.
  intros Hfind H1 H2. open_world w. run_component. rewrite Hfind. run_component.
  rewrite Hfind. run_component. rewrite H1. run_component. rewrite H2. run_component.
  repeat split.
Qed.

Lemma resell_pays_what_was_announced_witness :
  let env := services_up eevee in
  let w := world_of [eevee; pikachu] 25 in
  let w_open := run (handleResellConfirmation "p-001" "Pikachu") w in
  let w' := run (Modal_onConfirm env) w_open in
  modalContent (app w_open) = Some (mkModalContent "Pikachu" (card_resellValue pikachu))
  /\ tokenBalance (app w') = tokenBalance (app w) + card_resellValue pikachu
  /\ stored_balance (store w') = tokenBalance (app w) + card_resellValue pikachu
  /\ message (app w') =
       Some (AppMessage.mk AppMessage.success
               (Pokemon.name pikachu ++ " resold successfully! You gained "
                ++ pretty (card_resellValue pikachu) ++ " tokens.")).
Proof.
  apply (resell_pays_what_was_announced (services_up eevee)
           (world_of [eevee; pikachu] 25) "p-001" "Pikachu" pikachu).
  - reflexivity.
  - reflexivity.
  - reflexivity.
Defined.

(** X20: opening the confirmation and closing it without confirming is a
    round trip: from a world with no confirmation pending, the world after
    the cancellation is the world before the request. *)
Theorem resell_cancel_round_trip (pokemonId pokemonName : string) (w : World)
    (p : Pokemon.t) :
  modal_idle (app w) ->
  find_by_id pokemonId (pokemons (app w)) = Some p ->
  run (handleResellConfirmation pokemonId pokemonName ;; closeModal) w = w.
Proof.
  unfold modal_idle. intros Hidle Hfind. open_world w.
  cbn [app isModalOpen pokemonToResellId modalTitle modalContent modalOnConfirm
       isModalConfirmLoading] in Hidle.
  destruct Hidle as (-> & -> & -> & -> & -> & ->).
  run_component. rewrite Hfind. reflexivity.
Qed.

Lemma resell_cancel_round_trip_witness :
  run (handleResellConfirmation "p-001" "Pikachu" ;; closeModal)
      (world_of [eevee; pikachu] 25)
  = world_of [eevee; pikachu] 25.
Proof.
  apply (resell_cancel_round_trip "p-001" "Pikachu" (world_of [eevee; pikachu] 25)
           pikachu).
  - repeat split.
  - reflexivity.
Defined.

(** X21: a confirm action is used up by running: once it has settled,
    however its writes went, running the confirm control again changes
    nothing, so a resell cannot be credited twice through one dialog. *)
Theorem second_confirm_changes_nothing (env : Services) (w : World) :
  run (Modal_onConfirm env ;; Modal_onConfirm env) w = run (Modal_onConfirm env) w.
Proof.
  open_world w.
  match goal with c : option ConfirmClosure |- _ => destruct c as [[cp cb cid]|] end.
  all: all_cases; reflexivity.
Qed.

(** *** Generation and resell together *)

Lemma find_by_id_head (p : Pokemon.t) (collection : list Pokemon.t) :
  find_by_id (Pokemon.id p) (p :: collection) = Some p.
Proof. unfold find_by_id. cbn [List.find]. now rewrite String.eqb_refl. Qed.

(** X22: generating a creature and reselling it at once, with a store that
    accepts every write, changes the balance by the resale value of its
    rarity minus the cost of 10, in memory and in the store, and leaves the
    creature in the collection and in the store as resold: the lookup by
    its identity finds the new record, which is at the front. *)
Theorem generate_then_resell_net (env : Services) (w : World) (p : Pokemon.t) :
  10 <= tokenBalance (app w) ->
  store_accepts env ->
  generatePokemon_result env (S (length (calls w))) = Returns p ->
  let w' := run (generate_then_resell env (Pokemon.id p) (Pokemon.name p)) w in
  tokenBalance (app w') = tokenBalance (app w) - 10 + card_resellValue p
  /\ stored_balance (store w') = tokenBalance (app w) - 10 + card_resellValue p
  /\ find_by_id (Pokemon.id p) (pokemons (app w')) = Some (resold p)
  /\ stored_pokemons (store w') !! Pokemon.id p = Some (resold p)
  /\ length (pokemons (app w')) = S (length (pokemons (app w))).
Proof.
  unfold store_accepts. intros Hfunds Haccept Hgenerated. open_world w. run_component.
  destruct (Z.ltb_spec tokenBalance0 GENERATION_COST);
    [unfold GENERATION_COST in *; lia |].
  run_component. rewrite Haccept. run_component. rewrite Hgenerated. run_component.
  rewrite Haccept. run_component. rewrite find_by_id_head. run_component.
  rewrite find_by_id_head. run_component. rewrite Haccept. run_component.
  rewrite Haccept. run_component.
  repeat split.
  - exact (find_by_id_replace_by_id (resold p) (p :: pokemons0) p (find_by_id_head p _)).
  - apply lookup_insert_eq.
  - rewrite length_replace_by_id. reflexivity.
Qed.

Lemma generate_then_resell_net_witness :
  let env := services_up zapdos in
  let w := world_of [eevee; pikachu] 25 in
  let w' := run (generate_then_resell env (Pokemon.id zapdos) (Pokemon.name zapdos)) w in
  tokenBalance (app w') = tokenBalance (app w) - 10 + card_resellValue zapdos
  /\ stored_balance (store w') = tokenBalance (app w) - 10 + card_resellValue zapdos
  /\ find_by_id (Pokemon.id zapdos) (pokemons (app w')) = Some (resold zapdos)
  /\ stored_pokemons (store w') !! Pokemon.id zapdos = Some (resold zapdos)
  /\ length (pokemons (app w')) = S (length (pokemons (app w))).
Proof.
  apply (generate_then_resell_net (services_up zapdos) (world_of [eevee; pikachu] 25)
           zapdos).
  - vm_compute. discriminate.
  - exact (services_up_accepts zapdos).
  - reflexivity.
Defined.

(** *** What the page offers *)

(** X23: after a resell was confirmed and written, no card of that
    identity offers the resell or the evolve button: every record of the
    collection with that identity is the resold one. *)
Theorem resold_card_offers_nothing (env : Services) (w : World)
    (pokemonId pokemonName : string) (p : Pokemon.t) :
  find_by_id pokemonId (pokemons (app w)) = Some p ->
  store_rejects env (length (calls w)) = None ->
  store_rejects env (S (length (calls w))) = None ->
  let w' := run (resell_and_confirm env pokemonId pokemonName) w in
  Forall (fun q => Pokemon.id q = pokemonId ->
                   q = resold p /\ card_offers_actions q = false)
    (pokemons (app w')).
Proof.
  intros Hfind H1 H2 w'. apply Forall_forall. intros q Hq Hid. subst w'.
  rewrite (resell_and_confirm_success env pokemonId pokemonName w p) in Hq by assumption.
  cbn [app pokemons] in Hq.
  pose proof (find_by_id_Some _ _ _ Hfind) as Hp.
  apply elem_of_replace_by_id in Hq as [-> | [_ Hne]].
  - split; reflexivity.
  - exfalso. apply Hne. cbn [resold Pokemon.with_status Pokemon.id]. congruence.
Qed.

Lemma resold_card_offers_nothing_witness :
  let w' := run (resell_and_confirm (services_up eevee) "p-001" "Pikachu")
              (world_of [eevee; pikachu] 25) in
  Forall (fun q => Pokemon.id q = "p-001" ->
                   q = resold pikachu /\ card_offers_actions q = false)
    (pokemons (app w')).
Proof.
  apply (resold_card_offers_nothing (services_up eevee) (world_of [eevee; pikachu] 25)
           "p-001" "Pikachu" pikachu).
  - reflexivity.
  - reflexivity.
  - reflexivity.
Defined.

(** X24: the generate button and the funds check of the handler agree:
    when the button is enabled, the handler does not stop at the check, its
    first call is the write of the balance lowered by 10, and that balance
    is not negative. *)
Theorem enabled_generate_button_debits (env : Services) (w : World) :
  generateButton_disabled (app w) = false ->
  let w' := run (handleGeneratePokemon env) w in
  0 <= tokenBalance (app w) - 10
  /\ exists rest,
       calls_since w w' = updateTokenBalance_call (tokenBalance (app w) - 10) :: rest.
Proof.
  unfold generateButton_disabled. intros Henabled.
  apply orb_false_iff in Henabled as [_ Hfunds].
  apply Z.ltb_ge in Hfunds. unfold GENERATION_COST in Hfunds.
  split; [lia |].
  open_world w. cbn [app tokenBalance] in Hfunds. all_cases.
  all: unfold GENERATION_COST in *; try lia.
  all: settle_calls; eexists; reflexivity.
Qed.

Lemma enabled_generate_button_debits_witness :
  let w := world_of [pikachu] 25 in
  let w' := run (handleGeneratePokemon (services_up eevee)) w in
  0 <= tokenBalance (app w) - 10
  /\ exists rest,
       calls_since w w' = updateTokenBalance_call (tokenBalance (app w) - 10) :: rest.
Proof.
  apply (enabled_generate_button_debits (services_up eevee) (world_of [pikachu] 25)).
  reflexivity.
Defined.

(** *** More on the display ordering *)

(** X25: in the two rarity modes the creatures of one tier are displayed
    in the order they have in the collection. *)
Theorem display_keeps_order_within_tier (env : Services)
    (heap : list (list Pokemon.t)) (pokemons : nat) (mode : string)
    (collection : list Pokemon.t) (r : PokemonRarity.t) :
  heap !! pokemons = Some collection ->
  mode = "rarity-desc" \/ mode = "rarity-asc" ->
  exists (sorted : nat) (displayed : list Pokemon.t) (heap' : list (list Pokemon.t)),
    sortedPokemons env pokemons mode heap = Some (sorted, heap')
    /\ heap' !! sorted = Some displayed
    /\ of_rarity r displayed = of_rarity r collection.
Proof.
  intros Hlookup Hmode.
  exists (length heap), (sort_elements (compareFn_of env mode) collection),
         (heap ++ [sort_elements (compareFn_of env mode) collection])%list.
  split; [now apply sortedPokemons_copy |].
  split; [now apply list_lookup_middle |].
  unfold of_rarity. apply sort_elements_stable.
  intros a b Ha Hb. apply bool_decide_eq_true in Ha, Hb.
  destruct Hmode as [-> | ->]; unfold SortCompare, compareFn_of; cbn;
    rewrite Ha, Hb; lia.
Qed.

Lemma display_keeps_order_within_tier_witness :
  exists (sorted : nat) (displayed : list Pokemon.t) (heap' : list (list Pokemon.t)),
    sortedPokemons (services_up eevee) 0 "rarity-desc" [[eevee; zapdos; abra]]
      = Some (sorted, heap')
    /\ heap' !! sorted = Some displayed
    /\ of_rarity PokemonRarity.C displayed
       = of_rarity PokemonRarity.C [eevee; zapdos; abra].
Proof.
  apply (display_keeps_order_within_tier (services_up eevee) [[eevee; zapdos; abra]] 0
           "rarity-desc" [eevee; zapdos; abra] PokemonRarity.C).
  - reflexivity.
  - left. reflexivity.
Defined.
